(** * The installer pipeline of the FreeSO launcher

    A shallow embedding of the four installer classes of the launcher
    (macOS Extras, The Sims Online, Simitone, launcher update) and of the
    [CHANGE_GAME_PATH] event handler, with the properties of the pipeline
    stated over it.

    Conventions of the embedding:
    - the filesystem is the finite set of paths that exist;
    - every call across the UI / notification boundary is appended to a log;
    - a promise is the state transformer that runs up to its settlement and
      returns how it settled;
    - a callback-style filesystem call ([stat], [unlink]) takes effect where
      it is made;
    - what the outside world decides (whether the transfer failed, what the
      archive contains, which timer deadlines elapse while a step is pending)
      is read from an environment record;
    - the modules the installers import but do not define (the download
      handle, the archive and cabinet extractors, the launcher object) are
      modelled from the design document, each definition saying so. *)

From Stdlib Require Import ZArith QArith Qround Lia.
From stdpp Require Import base gmap strings pretty list.

Local Open Scope Z_scope.

(** ** JavaScript values used by the installers *)

Module JS.

(** How a promise settles.  Rejection reasons are error messages. *)
Inductive outcome (A : Type) : Type :=
| Resolved (a : A)
| Rejected (e : string).
Global Arguments Resolved {A} a.
Global Arguments Rejected {A} e.

(** A number as the download handle reports it: whole, or not a number. *)
Inductive jsnum : Type :=
| Num (z : Z)
| NaN.

Definition isNaN (n : jsnum) : bool :=
  match n with NaN => true | Num _ => false end.

(** [String(n)] *)
Definition toString (n : jsnum) : string :=
  match n with Num z => pretty z | NaN => "NaN" end.

(** [x.toFixed(0)] on an exact number: the nearest integer, the larger one
    on a tie, computed on the absolute value and with the sign put back. *)
Definition toFixed0 (x : Q) : Z :=
  if Qle_bool 0 x then Qfloor (x + (1 # 2))%Q
  else - Qfloor (- x + (1 # 2))%Q.

Fixpoint string_drop (n : nat) (s : string) : string :=
  match n, s with
  | O, _ => s
  | S n', String _ s' => string_drop n' s'
  | S _, EmptyString => EmptyString
  end.

(** [s.replace(pat, rep)] with a string pattern: the first occurrence only. *)
Fixpoint replace (pat rep s : string) : string :=
  if String.prefix pat s then rep +:+ string_drop (String.length pat) s
  else match s with
       | EmptyString => EmptyString
       | String c s' => String c (replace pat rep s')
       end.

(** The double-quote character, as a string. *)
Definition dquote : string := String (Ascii.ascii_of_nat 34) EmptyString.

(** [hay.includes(needle)] *)
Fixpoint includes (needle hay : string) : bool :=
  String.prefix needle hay ||
  match hay with
  | EmptyString => false
  | String _ hay' => includes needle hay'
  end.

End JS.
Export JS.

(** ** The filesystem *)

Module Fs.

Definition t : Type := gset string.

(** [fs.stat(p, cb)]: the error handed to the callback, [None] for [null]. *)
Definition stat (fs : t) (p : string) : option string :=
  if decide (p ∈ fs) then None else Some ("ENOENT: no such file or directory, stat '" +:+ p +:+ "'").

(** [fs.unlink(p, cb)]: the filesystem afterwards and the callback's error. *)
Definition unlink (fs : t) (p : string) : t * option string :=
  if decide (p ∈ fs) then (fs ∖ {[ p ]}, None)
  else (fs, Some ("ENOENT: no such file or directory, unlink '" +:+ p +:+ "'")).

(** [fs-extra]'s [pathExists(p)], which resolves to a boolean. *)
Definition pathExists (fs : t) (p : string) : bool :=
  bool_decide (p ∈ fs).

(** Writing a file creates its path. *)
Definition write (fs : t) (p : string) : t := fs ∪ {[ p ]}.

(** Removing a directory tree: every path below [dir] goes. *)
Definition rmtree (fs : t) (dir : string) : t :=
  filter (λ p, String.prefix (dir +:+ "/") p = false) fs.

End Fs.

(** ** Calls across the UI and notification boundary *)

Inductive event : Type :=
| AddProgressItem (elId title subtitle message : string) (percentage : Z)
| SetProgressBar (value : Q)
| StopProgressItem (elId : string)
| UpdateInstalledPrograms
| RemoveActiveTask (name : string)
| SetConfiguration (v : list string)
| ShowInstalled (component : string)
| ShowFailedInstall (component err : string)
| ShowFailedUpdateDownload
| CreateRegistryEntry (kind path : string)
| Exec (command cwd : string)
| ScheduleQuit
| ConsoleLog (msg : string).

Definition is_stop (elId : string) (ev : event) : bool :=
  match ev with
  | StopProgressItem i => bool_decide (i = elId)
  | _ => false
  end.

Definition is_stop_any (ev : event) : bool :=
  match ev with StopProgressItem _ => true | _ => false end.

Definition is_add (ev : event) : bool :=
  match ev with AddProgressItem _ _ _ _ _ => true | _ => false end.

(** The progress notifications of a log that show [message] at 100%. *)
Definition is_add_at_100 (elId message : string) (ev : event) : bool :=
  match ev with
  | AddProgressItem i _ _ m p =>
      bool_decide (i = elId) && bool_decide (m = message) && (p =? 100)
  | _ => false
  end.

(** Whether a notification carries [detail] in one of its texts. *)
Definition carries (detail : string) (ev : event) : bool :=
  match ev with
  | AddProgressItem _ title subtitle message _ =>
      includes detail title || includes detail subtitle || includes detail message
  | ShowFailedInstall _ err => includes detail err
  | _ => false
  end.

Fixpoint count (f : event → bool) (l : list event) : nat :=
  match l with
  | [] => 0
  | ev :: l' => ((if f ev then 1 else 0) + count f l')%nat
  end.

(** ** The installer's state and the promise monad *)

Record state : Type := State {
  fs : Fs.t;                 (* the paths that exist *)
  log : list event;          (* boundary calls, oldest first *)
  haltProgress : bool;       (* this.haltProgress *)
  timer : bool;              (* a setTimeout callback of updateDownloadProgress is pending *)
  simitoneVersion : string;  (* this.simitoneVersion *)
}.

Definition initial (files : Fs.t) : state :=
  {| fs := files; log := []; haltProgress := false; timer := false;
     simitoneVersion := "" |}.

Definition M (A : Type) : Type := state → outcome A * state.

Global Instance M_ret : MRet M := λ A a s, (Resolved a, s).

Global Instance M_bind : MBind M := λ A B f m s,
  match m s with
  | (Resolved a, s') => f a s'
  | (Rejected e, s') => (Rejected e, s')
  end.

(** [throw e] / [reject(e)] *)
Definition reject {A} (e : string) : M A := λ s, (Rejected e, s).

(** [try { m } catch (err) { h(err) }], also [m.catch(h)]. *)
Definition catch {A} (m : M A) (h : string → M A) : M A := λ s,
  match m s with
  | (Resolved a, s') => (Resolved a, s')
  | (Rejected e, s') => h e s'
  end.

Definition emit (ev : event) : M unit := λ s,
  (Resolved tt,
   {| fs := fs s; log := log s ++ [ev]; haltProgress := haltProgress s;
      timer := timer s; simitoneVersion := simitoneVersion s |}).

Definition set_fs (f : Fs.t → Fs.t) : M unit := λ s,
  (Resolved tt,
   {| fs := f (fs s); log := log s; haltProgress := haltProgress s;
      timer := timer s; simitoneVersion := simitoneVersion s |}).

Definition set_halt (b : bool) : M unit := λ s,
  (Resolved tt,
   {| fs := fs s; log := log s; haltProgress := b;
      timer := timer s; simitoneVersion := simitoneVersion s |}).

Definition set_timer (b : bool) : M unit := λ s,
  (Resolved tt,
   {| fs := fs s; log := log s; haltProgress := haltProgress s;
      timer := b; simitoneVersion := simitoneVersion s |}).

Definition set_version (v : string) : M unit := λ s,
  (Resolved tt,
   {| fs := fs s; log := log s; haltProgress := haltProgress s;
      timer := timer s; simitoneVersion := v |}).

Definition get {A} (f : state → A) : M A := λ s, (Resolved (f s), s).

Fixpoint for_each {A} (f : A → M unit) (l : list A) : M unit :=
  match l with
  | [] => mret tt
  | x :: l' => f x;; for_each f l'
  end.

(** What the download handle answers when the progress timer fires. *)
Record snapshot : Type := Snapshot {
  getProgress : jsnum;
  getProgressMB : jsnum;
  getSizeMB : jsnum;
}.

(** A timer deadline elapses: the pending callback, if any, runs. *)
Definition fire (callback : snapshot → M unit) (d : snapshot) : M unit :=
  pending ← get timer;
  if pending : bool then callback d else mret tt.

Definition run_ticks (callback : snapshot → M unit) (ds : list snapshot) : M unit :=
  for_each (fire callback) ds.

(** ** What the installers import *)

Record Locale : Type := {
  INS_IN : string;
  FSO_FAILED_INSTALLATION : string;
  TSO_FAILED_INSTALLATION : string;
  INSTALLATION_FINISHED : string;
  FSO_NETWORK_ERROR : string;
  DL_CLIENT_FILES : string;
  X_OUT_OF_X : string;
  EXTRACTING_CLIENT_FILES : string;
}.

Record TSOTemp : Type := {
  tso_path : string;
  tso_file : string;
  tso_extractionFolder : string;
  tso_firstCab : string;
  tso_rootCab : string;
}.

(** The constants module, the locale, the platform and the string utility:
    none of them is defined by the installers, so they are parameters. *)
Record Config : Type := {
  locale : Locale;
  platform : string;                     (* process.platform *)
  appData : string;
  temp_MacExtras : string;
  temp_TSO : TSOTemp;
  strFormat : string → string → string;
  updateLocation : string;               (* FSOLauncher.updateLocation *)
}.

(** The download handle of [../download] and [../http-download], which the
    installers import. *)
Module Download.

(** Modelled from the spec: [run] of the download handle, which is missing
    from the sources.  It "streams response bytes to a temporary file path",
    so the file exists once it has run, whether the transfer fails or not. *)
Definition run (to : string) : M unit := set_fs (λ f, Fs.write f to).

(** Modelled from the spec: [cleanup] of the download handle, which is
    missing from the sources: the "explicit cleanup call" by which "the
    owning pipeline" removes the temporary file, written as the installers
    write their own [cleanup]: [stat] first, [unlink] when that succeeds. *)
Definition cleanup (to : string) : M unit :=
  f ← get fs;
  match Fs.stat f to with
  | Some _ => mret tt
  | None => set_fs (λ f, (Fs.unlink f to).1)
  end.

(** Modelled from the spec: [getProgress] of the download handle, which is
    missing from the sources, for a transfer of [b] bytes out of [t]:
    "min(100, round(bytesTransferred / totalBytes * 100))".  With a zero
    total the division gives no number. *)
Definition percentage (b t : Z) : jsnum :=
  if t =? 0 then NaN
  else Num (Z.min 100 (toFixed0 (inject_Z b / inject_Z t * 100)%Q)).

End Download.

(** The archive extractor of [../unzip], which the installers import. *)
Module Unzip.

Definition missing (from : string) : string :=
  "ENOENT: no such file or directory, open '" +:+ from +:+ "'".

(** The cleaner callback, as the closure it is: it remembers the
    directory it extracted into. *)
Record cleaner : Type := { extracted_to : string }.

(** Modelled from the spec: calling the cleaner that [unzip] hands back
    ("the unzip cleaner callback" of the installer, missing from the
    sources): what was extracted is removed again. *)
Definition call (gc : cleaner) : M unit :=
  set_fs (λ f, Fs.rmtree f (extracted_to gc)).

(** Modelled from the spec: [unzip], which is missing from the sources.
    "extract(archivePath, destinationDir) -> sequence of per-entry completion
    notifications, terminated by a final success/error signal"; "source
    archive missing/corrupt -> signals a descriptive extraction error". *)
Definition unzip (from to : string) (entries : list string)
    (err : option string) (cb : string → M unit) : M cleaner :=
  f ← get fs;
  if Fs.pathExists f from then
    for_each (λ filename,
      set_fs (λ f, Fs.write f (to +:+ "/" +:+ filename));; cb filename) entries;;
    match err with
    | Some e => reject e
    | None => mret {| extracted_to := to |}
    end
  else reject (missing from).

End Unzip.

(** ** The macOS Extras installer *)

Module MacExtras.

Record installer : Type := {
  id : Z;
  path : string;
  parentComponent : string;
  tempPath : string;
}.

Record env : Type := {
  ticks : nat → list snapshot;   (* deadlines elapsing while step n is pending *)
  hasFailed : bool;              (* this.dl.hasFailed() when 'end' arrives *)
  ensureDir_err : option string;
  unzip_entries : list string;
  unzip_err : option string;
}.

Section Defs.
Context (C : Config).

Definition constructor (now : Z) (path parentComponent : string) : installer :=
  let id := now / 1000 in
  {| id := id; path := path; parentComponent := parentComponent;
     tempPath := strFormat C (temp_MacExtras C) (pretty id) |}.

Definition elId (i : installer) : string := "FSOProgressItem" +:+ pretty (id i).

(** The [textPath] constant of [createProgressItem]. *)
Definition textPath (i : installer) : string :=
  if bool_decide (platform C = "win32") then path i
  else replace (appData C +:+ "/") "" (path i).

Definition createProgressItem (i : installer) (message : string)
    (percentage : Z) : M unit :=
  emit (AddProgressItem (elId i)
          (parentComponent i +:+ " MacExtras")
          (INS_IN (locale C) +:+ " " +:+ textPath i)
          message percentage);;
  emit (SetProgressBar (if percentage =? 100 then 2 else percentage # 100)).

Definition updateDownloadProgress : M unit := set_timer true.

(** [let p = this.dl.getProgress(); if ( isNaN( p ) ) p = 0;] *)
Definition percentage (p : jsnum) : Z :=
  if isNaN p then 0 else match p with Num p => p | NaN => 0 end.

(** The callback [updateDownloadProgress] hands to [setTimeout]. *)
Definition tick (i : installer) (d : snapshot) : M unit :=
  set_timer false;;
  let mb := getProgressMB d in
  let size := getSizeMB d in
  let p := percentage (getProgress d) in
  if p <? 100 then
    halt ← get haltProgress;
    (if negb halt then
       createProgressItem i
         (DL_CLIENT_FILES (locale C) +:+ " " +:+ toString mb +:+ " MB "
            +:+ X_OUT_OF_X (locale C) +:+ " " +:+ toString size +:+ " MB ("
            +:+ pretty p +:+ "%)")
         p
     else mret tt);;
    updateDownloadProgress
  else mret tt.

Definition download (i : installer) (e : env) : M unit :=
  Download.run (tempPath i);;
  updateDownloadProgress;;
  run_ticks (tick i) (ticks e 1);;
  if hasFailed e then reject (FSO_NETWORK_ERROR (locale C)) else mret tt.

Definition setupDir (i : installer) (e : env) (dir : string) : M unit :=
  run_ticks (tick i) (ticks e 2);;
  match ensureDir_err e with
  | Some err => reject err
  | None => set_fs (λ f, Fs.write f dir)
  end.

Definition extract (i : installer) (e : env) : M unit :=
  run_ticks (tick i) (ticks e 3);;
  Unzip.unzip (tempPath i) (path i) (unzip_entries e) (unzip_err e)
    (λ filename,
       createProgressItem i
         (EXTRACTING_CLIENT_FILES (locale C) +:+ " " +:+ filename) 100);;
  mret tt.

Definition step1 := download.
Definition step2 (i : installer) (e : env) := setupDir i e (path i).
Definition step3 := extract.

Definition error (i : installer) (_err : string) : M unit :=
  Download.cleanup (tempPath i);;
  set_halt true;;
  createProgressItem i
    (strFormat C (FSO_FAILED_INSTALLATION (locale C)) "macOS Extras") 100;;
  emit (StopProgressItem (elId i)).

Definition end_ (i : installer) : M unit :=
  Download.cleanup (tempPath i);;
  createProgressItem i (INSTALLATION_FINISHED (locale C)) 100;;
  emit (StopProgressItem (elId i)).

(** The awaited steps of [install], up to the call of [end]. *)
Definition steps (i : installer) (e : env) : M unit :=
  step1 i e;; step2 i e;; step3 i e.

Definition install (i : installer) (e : env) : M unit :=
  catch
    (steps i e;; end_ i)
    (λ err, error i err;; reject err).

(** The installer's own [cleanup] method. *)
Definition cleanup (i : installer) : M unit :=
  f ← get fs;
  match Fs.stat f (tempPath i) with
  | Some _ => mret tt
  | None =>
      let '(f', err) := Fs.unlink f (tempPath i) in
      set_fs (λ _, f');;
      match err with
      | Some msg => emit (ConsoleLog msg)
      | None => mret tt
      end
  end.

End Defs.

End MacExtras.

(** The cabinet extractor of [../cabinet], which the installer imports. *)
Module Cabinet.

Record cabInfo : Type := { file : string; current : string }.

Definition missing (from : string) : string :=
  "ENOENT: no such file or directory, open '" +:+ from +:+ "'".

(** Modelled from the spec: [extract] of the cabinet module, which is
    missing from the sources.  It unpacks the chain that starts at the first
    cabinet [from] into [to], notifies once per unpacked file and ends by
    calling [onEnd] with the error, if any; "missing first cabinet" is an
    [ArchiveError]. *)
Definition extract {A} (from to : string) (entries : list cabInfo)
    (err : option string) (onProgress : cabInfo → M unit)
    (onEnd : option string → M A) : M A :=
  f ← get fs;
  if Fs.pathExists f from then
    for_each (λ c,
      set_fs (λ f, Fs.write f (to +:+ "/" +:+ file c));; onProgress c) entries;;
    onEnd err
  else onEnd (Some (missing from)).

End Cabinet.

(** [path.basename(p)]: the last non-empty segment between slashes. *)
Fixpoint basename_go (last cur s : string) : string :=
  match s with
  | EmptyString => if bool_decide (cur = "") then last else cur
  | String c s' =>
      if bool_decide (String c "" = "/")
      then basename_go (if bool_decide (cur = "") then last else cur) "" s'
      else basename_go last (cur +:+ String c "") s'
  end.

Definition basename (p : string) : string := basename_go "" "" p.

(** ** The Sims Online installer *)

Module TSO.

Record installer : Type := {
  id : Z;
  path : string;
  tempFilePath : string;
}.

Record env : Type := {
  ticks : nat → list snapshot;
  hasFailed : bool;
  ensureDir_err : option string;
  unzip_entries : list string;
  unzip_err : option string;
  pathExists_err : option string;      (* pathExists throwing, if it does *)
  cab_entries : list Cabinet.cabInfo;
  cab_err : option string;
  registry_err : option string;
}.

Section Defs.
Context (C : Config).

Definition constructor (now : Z) (path : string) : installer :=
  {| id := now / 1000; path := path;
     tempFilePath := tso_path (temp_TSO C) +:+ "/" +:+ tso_file (temp_TSO C) |}.

Definition elId (i : installer) : string := "TSOProgressItem" +:+ pretty (id i).

(** The [textPath] constant of [createProgressItem]. *)
Definition textPath (i : installer) : string :=
  if bool_decide (platform C = "win32") then path i
  else replace (appData C +:+ "/") "" (path i).

(** The third parameter, [extraction], is passed on to [addProgressItem] but
    no caller ever supplies it. *)
Definition createProgressItem (i : installer) (message : string)
    (percentage : Z) : M unit :=
  emit (AddProgressItem (elId i)
          "The Sims Online (FilePlanet)"
          (INS_IN (locale C) +:+ " " +:+ textPath i)
          message percentage);;
  emit (SetProgressBar (if percentage =? 100 then 2 else percentage # 100)).

(** [p] of [updateDownloadProgress]:
    [((mb / 1268) * 100).toFixed(0)], and 0 when that is not a number.
    [toFixed] yields the digits, which every later use reads as the number. *)
Definition percentage (mb : jsnum) : Z :=
  match mb with
  | NaN => 0
  | Num mb => toFixed0 (inject_Z mb / 1268 * 100)%Q
  end.

Definition updateDownloadProgress : M unit := set_timer true.

Definition tick (i : installer) (d : snapshot) : M unit :=
  set_timer false;;
  let mb := getProgressMB d in
  let p := percentage mb in
  halt ← get haltProgress;
  if halt : bool then mret tt
  else
    createProgressItem i
      (DL_CLIENT_FILES (locale C) +:+ " " +:+ toString mb +:+ " MB "
         +:+ X_OUT_OF_X (locale C) +:+ " 1268 MB (" +:+ pretty p +:+ "%)")
      p;;
    updateDownloadProgress.

Definition download (i : installer) (e : env) : M unit :=
  Download.run (tempFilePath i);;
  updateDownloadProgress;;
  run_ticks (tick i) (ticks e 1);;
  set_halt true;;
  if hasFailed e then reject (FSO_NETWORK_ERROR (locale C)) else mret tt.

Definition setupDir (i : installer) (e : env) (dir : string) : M unit :=
  run_ticks (tick i) (ticks e 2);;
  match ensureDir_err e with
  | Some err => reject err
  | None => set_fs (λ f, Fs.write f dir)
  end.

Definition extractionDir : string :=
  tso_path (temp_TSO C) +:+ "/" +:+ tso_extractionFolder (temp_TSO C).

Definition extractZip (i : installer) (e : env) : M Unzip.cleaner :=
  run_ticks (tick i) (ticks e 3);;
  createProgressItem i "Extracting client files, please wait..." 100;;
  Unzip.unzip (tempFilePath i) extractionDir (unzip_entries e) (unzip_err e)
    (λ filename,
       createProgressItem i
         (EXTRACTING_CLIENT_FILES (locale C) +:+ " " +:+ filename) 100).

Definition updateExtractionProgress (i : installer) (cab : Cabinet.cabInfo)
    : M unit :=
  createProgressItem i
    ("Extracting " +:+ Cabinet.file cab +:+ " ("
       +:+ basename (Cabinet.current cab) +:+ ")")
    100.

Definition firstCabPath : string :=
  extractionDir +:+ "/" +:+ tso_firstCab (temp_TSO C).

Definition rootCabPath : string :=
  extractionDir +:+ "/" +:+ tso_rootCab (temp_TSO C).

(** The [from] that [extractCabs] settles on before it calls the
    extractor. *)
Definition locateFirstCab (e : env) : M string :=
  match pathExists_err e with
  | Some err => emit (ConsoleLog err);; mret firstCabPath
  | None =>
      f ← get fs;
      if negb (Fs.pathExists f firstCabPath) then mret rootCabPath
      else mret firstCabPath
  end.

Definition extractCabs (i : installer) (e : env) (unzipgc : Unzip.cleaner)
    : M unit :=
  run_ticks (tick i) (ticks e 4);;
  from ← locateFirstCab e;
  Cabinet.extract from (path i) (cab_entries e) (cab_err e)
    (updateExtractionProgress i)
    (λ err,
       Unzip.call unzipgc;;
       Download.cleanup (tempFilePath i);;
       match err with
       | Some err => reject ("The Sims Online extraction failed: " +:+ err)
       | None => mret tt
       end).

Definition step1 := download.
Definition step2 (i : installer) (e : env) := setupDir i e (path i).
Definition step3 := extractZip.
Definition step4 := extractCabs.

Definition step5 (i : installer) (e : env) : M unit :=
  run_ticks (tick i) (ticks e 5);;
  emit (CreateRegistryEntry "Maxis" (path i));;
  match registry_err e with
  | Some err => reject err
  | None => mret tt
  end.

Definition isInstalledInPath (i : installer) : M bool :=
  f ← get fs;
  mret (bool_decide (Fs.stat f (path i +:+ "/TSOClient/TSOClient.exe") = None)).

Definition end_ (i : installer) : M unit :=
  Download.cleanup (tempFilePath i);;
  createProgressItem i (INSTALLATION_FINISHED (locale C)) 100;;
  emit (StopProgressItem (elId i)).

Definition error (i : installer) (_err : string) : M unit :=
  Download.cleanup (tempFilePath i);;
  set_halt true;;
  createProgressItem i (TSO_FAILED_INSTALLATION (locale C)) 100;;
  emit (StopProgressItem (elId i)).

(** The awaited steps of [install], up to the call of [end]. *)
Definition steps (i : installer) (e : env) : M unit :=
  step1 i e;;
  step2 i e;;
  unzipgc ← step3 i e;
  step4 i e unzipgc;;
  step5 i e.

Definition install (i : installer) (e : env) : M unit :=
  catch
    (steps i e;; end_ i)
    (λ err, error i err;; reject err).

End Defs.

End TSO.

(** ** The Simitone installer *)

Module Simitone.

Record installer : Type := {
  id : Z;
  path : string;
  tempPath : string;
}.

Record env : Type := {
  ticks : nat → list snapshot;
  releaseInfo : outcome (option string);   (* tag_name of the release data *)
  failed : bool;                           (* this.dl.failed when 'end' arrives *)
  mkdirp_err : option string;
  unzip_entries : list string;
  unzip_err : option string;               (* 'error' of the stream; 'close' otherwise *)
  registry_err : option string;
}.

Section Defs.
Context (C : Config).

Definition constructor (path : string) (now : Z) : installer :=
  let id := now / 1000 in
  {| id := id; path := path;
     tempPath := "temp/artifacts-simitone-" +:+ pretty id +:+ ".zip" |}.

Definition elId (i : installer) : string := "FSOProgressItem" +:+ pretty (id i).

Definition createProgressItem (i : installer) (Message : string)
    (Percentage : Z) : M unit :=
  version ← get simitoneVersion;
  emit (AddProgressItem (elId i)
          ("Simitone Client " +:+ version)
          ("Installing in " +:+ path i)
          Message Percentage).

Definition cleanup (i : installer) : M unit :=
  f ← get fs;
  match Fs.stat f (tempPath i) with
  | Some err => emit (ConsoleLog err)
  | None =>
      let '(f', err) := Fs.unlink f (tempPath i) in
      set_fs (λ _, f');;
      match err with
      | Some msg => emit (ConsoleLog msg)
      | None => mret tt
      end
  end.

Definition updateDownloadProgress : M unit := set_timer true.

(** [let p = this.dl.getProgress(); if (isNaN(p)) p = 0;] *)
Definition percentage (p : jsnum) : Z :=
  if isNaN p then 0 else match p with Num p => p | NaN => 0 end.

Definition tick (i : installer) (d : snapshot) : M unit :=
  set_timer false;;
  let mb := getProgressMB d in
  let size := getSizeMB d in
  let p := percentage (getProgress d) in
  if p <? 100 then
    halt ← get haltProgress;
    (if negb halt then
       createProgressItem i
         (DL_CLIENT_FILES (locale C) +:+ " " +:+ toString mb +:+ " MB "
            +:+ X_OUT_OF_X (locale C) +:+ " " +:+ toString size +:+ " MB ("
            +:+ pretty p +:+ "%)")
         p
     else mret tt);;
    updateDownloadProgress
  else mret tt.

Definition step1 (i : installer) (e : env) : M unit :=
  match releaseInfo e with
  | Rejected err => reject err
  | Resolved tag_name =>
      match tag_name with
      | Some v => set_version v
      | None => mret tt
      end
  end.

Definition download (i : installer) (e : env) : M unit :=
  Download.run (tempPath i);;
  updateDownloadProgress;;
  run_ticks (tick i) (ticks e 2);;
  if failed e then
    cleanup i;;
    reject (FSO_NETWORK_ERROR (locale C))
  else mret tt.

Definition setupDir (i : installer) (e : env) (dir : string) : M unit :=
  run_ticks (tick i) (ticks e 3);;
  match mkdirp_err e with
  | Some err => reject err
  | None => set_fs (λ f, Fs.write f dir)
  end.

Definition extract (i : installer) (e : env) : M unit :=
  run_ticks (tick i) (ticks e 4);;
  createProgressItem i (EXTRACTING_CLIENT_FILES (locale C)) 100;;
  for_each (λ entry,
    set_fs (λ f, Fs.write f (path i +:+ "\" +:+ entry));;
    createProgressItem i
      (EXTRACTING_CLIENT_FILES (locale C) +:+ " " +:+ entry) 100)
    (unzip_entries e);;
  match unzip_err e with
  | Some err =>
      (* this.cleanup() is commented out on this branch *)
      reject err
  | None =>
      cleanup i;;
      mret tt
  end.

Definition step2 := download.
Definition step3 (i : installer) (e : env) := setupDir i e (path i).
Definition step4 := extract.

Definition step5 (i : installer) (e : env) : M unit :=
  run_ticks (tick i) (ticks e 5);;
  emit (CreateRegistryEntry "Simitone" (path i));;
  match registry_err e with
  | Some err => reject err
  | None => mret tt
  end.

Definition end_ (i : installer) : M unit :=
  createProgressItem i (INSTALLATION_FINISHED (locale C)) 100;;
  emit (StopProgressItem (elId i));;
  emit UpdateInstalledPrograms;;
  emit (RemoveActiveTask "Simitone");;
  version ← get simitoneVersion;
  (if bool_decide (version = "") then mret tt
   else emit (SetConfiguration ["Game"; "SimitoneVersion"; version]));;
  emit (ShowInstalled "Simitone").

Definition error (i : installer) (ErrorMessage : string) : M unit :=
  set_halt true;;
  createProgressItem i (FSO_FAILED_INSTALLATION (locale C)) 100;;
  emit (StopProgressItem (elId i));;
  emit (RemoveActiveTask "Simitone");;
  emit (ShowFailedInstall "Simitone" ErrorMessage);;
  reject ErrorMessage.

(** The chain of [install], up to the call of [end]. *)
Definition steps (i : installer) (e : env) : M unit :=
  step1 i e;; step2 i e;; step3 i e;; step4 i e;; step5 i e.

Definition install (i : installer) (e : env) : M unit :=
  catch
    (steps i e;; end_ i)
    (λ ErrorMessage, error i ErrorMessage).

Definition isInstalledInPath (i : installer) : M bool :=
  f ← get fs;
  mret (bool_decide (Fs.stat f (path i +:+ "\Simitone.Windows.exe") = None)).

End Defs.

End Simitone.

(** ** The launcher update installer *)

Module Update.

Record installer : Type := { id : Z }.

Record env : Type := {
  ticks : nat → list snapshot;
  failed : bool;
}.

Definition tempPath : string := "temp/installer.exe".

Section Defs.
Context (C : Config).

Definition constructor (now : Z) : installer := {| id := now / 1000 |}.

Definition elId (i : installer) : string :=
  "FSOUpdateProgressItem" +:+ pretty (id i).

Definition createProgressItem (i : installer) (Message : string)
    (Percentage : Z) : M unit :=
  emit (AddProgressItem (elId i)
          "FreeSO Launcher"
          ("Downloading from " +:+ updateLocation C)
          Message Percentage).

Definition cleanup : M unit :=
  f ← get fs;
  match Fs.stat f tempPath with
  | Some _ => mret tt
  | None =>
      let '(f', err) := Fs.unlink f tempPath in
      set_fs (λ _, f');;
      match err with
      | Some msg => emit (ConsoleLog msg)
      | None => mret tt
      end
  end.

Definition updateDownloadProgress : M unit := set_timer true.

(** No [isNaN] guard here: [NaN < 100] is false. *)
Definition tick (i : installer) (d : snapshot) : M unit :=
  set_timer false;;
  let mb := getProgressMB d in
  let size := getSizeMB d in
  match getProgress d with
  | NaN => mret tt
  | Num p =>
      if p <? 100 then
        halt ← get haltProgress;
        (if negb halt then
           createProgressItem i
             ("Downloading installation files... " +:+ toString mb +:+ " MB "
                +:+ X_OUT_OF_X (locale C) +:+ " " +:+ toString size +:+ " MB ("
                +:+ pretty p +:+ "%)")
             p
         else mret tt);;
        updateDownloadProgress
      else mret tt
  end.

Definition download (i : installer) (e : env) : M unit :=
  Download.run tempPath;;
  updateDownloadProgress;;
  run_ticks (tick i) (ticks e 1);;
  if failed e then
    cleanup;;
    reject "FreeSO Launcher installation files have failed to download. You can try again later or download it yourself at beta.freeso.org/FreeSO Launcher Setup.exe"
  else mret tt.

Definition step1 := download.

Definition execute : M unit := emit (Exec "installer.exe" "temp").

Definition end_ (i : installer) : M unit :=
  createProgressItem i "Download finished. Setup will start..." 100;;
  emit (StopProgressItem (elId i));;
  emit ScheduleQuit;;
  execute.

(** The message [error] shows. *)
Definition failedMessage : string :=
  "Failed to download FreeSO Launcher. Try again later, or download from <a target="
    +:+ dquote +:+ "_blank" +:+ dquote +:+ " href=" +:+ dquote
    +:+ updateLocation C +:+ dquote +:+ ">here</a>.".

Definition error (i : installer) (ErrorMessage : string) : M unit :=
  set_halt true;;
  createProgressItem i failedMessage 100;;
  emit (StopProgressItem (elId i));;
  emit ShowFailedUpdateDownload;;
  reject ErrorMessage.

Definition steps (i : installer) (e : env) : M unit := step1 i e.

Definition install (i : installer) (e : env) : M unit :=
  catch (steps i e;; end_ i) (λ ErrorMessage, error i ErrorMessage).

End Defs.

End Update.

(** ** The coordinator and the event handler *)

(** The launcher object of [./fsolauncher], which the event handlers call.
    It owns the active-task markers. *)
Module Launcher.

Record options : Type := { component : string; dir : option string }.

Inductive call : Type :=
| ChangeGamePath (o : options)
| RunPipeline (component : string)
| ShowAlreadyInstalling.

Record t : Type := {
  activeTasks : list string;
  calls : list call;
}.

Inductive verdict : Type :=
| Accepted
| AlreadyInstallingError.

(** Modelled from the spec: whether "ActiveTaskSet already marks the
    component active"; the launcher object is missing from the sources. *)
Definition isActive (l : t) (name : string) : bool :=
  bool_decide (name ∈ activeTasks l).

(** Modelled from the spec: [removeActiveTask] of the launcher object, which
    is missing from the sources: it "clears the marker" of the component. *)
Definition removeActiveTask (name : string) (l : t) : t :=
  {| activeTasks := filter (λ n, n ≠ name) (activeTasks l); calls := calls l |}.

(** Modelled from the spec: [changeGamePath] of the launcher object, which
    is missing from the sources; only the call is recorded. *)
Definition changeGamePath (o : options) (l : t) : t :=
  {| activeTasks := activeTasks l; calls := calls l ++ [ChangeGamePath o] |}.

(** Modelled from the spec: the admission of an install request by the
    launcher object, which is missing from the sources.  It "rejects the
    request with AlreadyInstallingError if ActiveTaskSet already marks the
    component active; otherwise marks it active, constructs and runs a
    pipeline". *)
Definition install (name : string) (l : t) : verdict * t :=
  if isActive l name then
    (AlreadyInstallingError,
     {| activeTasks := activeTasks l; calls := calls l ++ [ShowAlreadyInstalling] |})
  else
    (Accepted,
     {| activeTasks := activeTasks l ++ [name];
        calls := calls l ++ [RunPipeline name] |}).

End Launcher.

Module Events.

(** [onChangeGamePath(e, yes, options)].  [options] is what [JSON.parse]
    made of the argument, [None] when it threw. *)
Definition onChangeGamePath (yes : bool) (options : option Launcher.options)
    (l : Launcher.t) : outcome unit * Launcher.t :=
  match options with
  | None => (Rejected "SyntaxError", l)
  | Some options =>
      if yes then (Resolved tt, Launcher.changeGamePath options l)
      else (Resolved tt, Launcher.removeActiveTask (Launcher.component options) l)
  end.

End Events.

(** ** A concrete configuration and concrete runs *)

Module Sample.

Definition en : Locale := {|
  INS_IN := "Installing in";
  FSO_FAILED_INSTALLATION := "%s installation failed.";
  TSO_FAILED_INSTALLATION := "The Sims Online installation failed.";
  INSTALLATION_FINISHED := "Installation finished";
  FSO_NETWORK_ERROR := "Network error";
  DL_CLIENT_FILES := "Downloading client files...";
  X_OUT_OF_X := "out of";
  EXTRACTING_CLIENT_FILES := "Extracting client files...";
|}.

Definition config : Config := {|
  locale := en;
  platform := "darwin";
  appData := "/data";
  temp_MacExtras := "/data/temp/macextras-%s.zip";
  temp_TSO := {| tso_path := "/data/temp/tsoclient";
                 tso_file := "client.zip";
                 tso_extractionFolder := "client";
                 tso_firstCab := "TSO_Installer_v1.1239.1.0/Data1.cab";
                 tso_rootCab := "Data1.cab" |};
  strFormat := λ str v, replace "%s" v str;
  updateLocation := "https://beta.freeso.org/FreeSO Launcher Setup.exe";
|}.

Definition no_ticks : nat → list snapshot := λ _, [].

(** A transfer stuck at 40 MB out of 100 MB. *)
Definition at40 : snapshot :=
  {| getProgress := Num 40; getProgressMB := Num 40; getSizeMB := Num 100 |}.

(** macOS Extras: everything succeeds. *)
Definition mac_ok : MacExtras.env := {|
  MacExtras.ticks := λ n, if decide (n = 1%nat) then [at40] else [];
  MacExtras.hasFailed := false;
  MacExtras.ensureDir_err := None;
  MacExtras.unzip_entries := ["FreeSO.command"];
  MacExtras.unzip_err := None;
|}.

(** macOS Extras: the transfer fails with the given timer deadlines. *)
Definition mac_net_fail : MacExtras.env := {|
  MacExtras.ticks := λ n, if decide (n = 1%nat) then [at40] else [];
  MacExtras.hasFailed := true;
  MacExtras.ensureDir_err := None;
  MacExtras.unzip_entries := [];
  MacExtras.unzip_err := None;
|}.

(** macOS Extras: creating the destination fails with [err]. *)
Definition mac_dir_fail (err : string) : MacExtras.env := {|
  MacExtras.ticks := no_ticks;
  MacExtras.hasFailed := false;
  MacExtras.ensureDir_err := Some err;
  MacExtras.unzip_entries := [];
  MacExtras.unzip_err := None;
|}.

(** Simitone: the archive stream signals an error. *)
Definition simitone_unzip_fail : Simitone.env := {|
  Simitone.ticks := no_ticks;
  Simitone.releaseInfo := Resolved (Some "v1.2.3");
  Simitone.failed := false;
  Simitone.mkdirp_err := None;
  Simitone.unzip_entries := [];
  Simitone.unzip_err := Some "invalid signature";
  Simitone.registry_err := None;
|}.

(** Simitone: everything succeeds. *)
Definition simitone_ok : Simitone.env := {|
  Simitone.ticks := no_ticks;
  Simitone.releaseInfo := Resolved (Some "v1.2.3");
  Simitone.failed := false;
  Simitone.mkdirp_err := None;
  Simitone.unzip_entries := ["Simitone.Windows.exe"];
  Simitone.unzip_err := None;
  Simitone.registry_err := None;
|}.

(** The Sims Online: the archive holds the first cabinet at the root. *)
Definition tso_root : TSO.env := {|
  TSO.ticks := no_ticks;
  TSO.hasFailed := false;
  TSO.ensureDir_err := None;
  TSO.unzip_entries := ["Data1.cab"; "Data2.cab"];
  TSO.unzip_err := None;
  TSO.pathExists_err := None;
  TSO.cab_entries := [ {| Cabinet.file := "TSOClient/TSOClient.exe";
                          Cabinet.current := "/data/temp/tsoclient/client/Data1.cab" |} ];
  TSO.cab_err := None;
  TSO.registry_err := None;
|}.

(** The Sims Online: the archive holds no first cabinet at all. *)
Definition tso_no_cab : TSO.env := {|
  TSO.ticks := no_ticks;
  TSO.hasFailed := false;
  TSO.ensureDir_err := None;
  TSO.unzip_entries := ["readme.txt"];
  TSO.unzip_err := None;
  TSO.pathExists_err := None;
  TSO.cab_entries := [];
  TSO.cab_err := None;
  TSO.registry_err := None;
|}.

(** Installers, constructed one and a half seconds into the epoch. *)
Definition mac : MacExtras.installer :=
  MacExtras.constructor config 1500 "/data/GameComponents/FreeSO" "FreeSO".

Definition tso : TSO.installer :=
  TSO.constructor config 1500 "/data/GameComponents/The Sims Online".

Definition simitone : Simitone.installer :=
  Simitone.constructor "C:\Games\Simitone" 1500.

Definition update : Update.installer := Update.constructor 1500.

(** Two macOS Extras runs for two parent components, constructed within
    the same second. *)
Definition mac_for_freeso : MacExtras.installer :=
  MacExtras.constructor config 1000 "/data/GameComponents/FreeSO" "FreeSO".

Definition mac_for_simitone : MacExtras.installer :=
  MacExtras.constructor config 1999 "/data/GameComponents/Simitone" "Simitone".

Definition eacces : string :=
  "EACCES: permission denied, mkdir '/data/GameComponents'".

(** Simitone: the transfer fails. *)
Definition simitone_net_fail : Simitone.env := {|
  Simitone.ticks := no_ticks;
  Simitone.releaseInfo := Resolved (Some "v1.2.3");
  Simitone.failed := true;
  Simitone.mkdirp_err := None;
  Simitone.unzip_err := None;
  Simitone.unzip_entries := [];
  Simitone.registry_err := None;
|}.

(** The extraction folder holds the first cabinet at its root only. *)
Definition cab_at_root : state :=
  initial {[ "/data/temp/tsoclient/client/Data1.cab" ]}.

Definition gc : Unzip.cleaner :=
  {| Unzip.extracted_to := "/data/temp/tsoclient/client" |}.

Definition update_fail : Update.env := {|
  Update.ticks := no_ticks;
  Update.failed := true;
|}.

Definition update_ok : Update.env := {|
  Update.ticks := no_ticks;
  Update.failed := false;
|}.

(** Simitone: writing the registry entry fails. *)
Definition simitone_registry_fail : Simitone.env := {|
  Simitone.ticks := no_ticks;
  Simitone.releaseInfo := Resolved (Some "v1.2.3");
  Simitone.failed := false;
  Simitone.mkdirp_err := None;
  Simitone.unzip_entries := ["Simitone.Windows.exe"];
  Simitone.unzip_err := None;
  Simitone.registry_err := Some "Access is denied.";
|}.

(** Simitone: the release lookup fails, before anything is downloaded. *)
Definition simitone_lookup_fail : Simitone.env := {|
  Simitone.ticks := no_ticks;
  Simitone.releaseInfo := Rejected "getaddrinfo ENOTFOUND api.github.com";
  Simitone.failed := false;
  Simitone.mkdirp_err := None;
  Simitone.unzip_entries := [];
  Simitone.unzip_err := None;
  Simitone.registry_err := None;
|}.

(** Simitone: creating the installation directory fails. *)
Definition simitone_dir_fail : Simitone.env := {|
  Simitone.ticks := no_ticks;
  Simitone.releaseInfo := Resolved (Some "v1.2.3");
  Simitone.failed := false;
  Simitone.mkdirp_err := Some "EPERM: operation not permitted, mkdir 'C:\Games'";
  Simitone.unzip_entries := [];
  Simitone.unzip_err := None;
  Simitone.registry_err := None;
|}.


(** A macOS Extras run whose path holds the application data directory
    twice, neither time at its start. *)
Definition mac_mounted : MacExtras.installer :=
  MacExtras.constructor config 1500 "/mnt/data/old/data/FreeSO" "FreeSO".

End Sample.

(** ** Observations that a computation leaves alone *)

(** [m] never changes what [f] observes of the state, however it settles. *)
Definition keeps {A X} (f : state → X) (m : M A) : Prop :=
  ∀ s, f (m s).2 = f s.

(** [m] always resolves. *)
Definition resolves {A} (m : M A) : Prop :=
  ∀ s, ∃ a, (m s).1 = Resolved a.

(** The number of stop notifications sent so far. *)
Definition stops (s : state) : nat := count is_stop_any (log s).

(** The number of stop notifications sent so far for the row [elId]. *)
Definition stops_of (elId : string) (s : state) : nat := count (is_stop elId) (log s).

(** A state in which the pipeline has halted progress reporting while the
    timer callback is still pending. *)
Definition halted : state :=
  {| fs := ∅; log := []; haltProgress := true; timer := true;
     simitoneVersion := "" |}.

(** The percentage the spec asks for:
    [min(100, round(bytesTransferred / totalBytes * 100))], with
    [round(x)] the integer part of [x + 1/2]. *)
Definition spec_round (b t : Z) : Z := (2 * (100 * b) + t) / (2 * t).


(** ** Further observations of a run *)

Definition rejected {A} (o : outcome A) : bool :=
  match o with Rejected _ => true | Resolved _ => false end.

(** A progress-row call addressed to another row than [elId]. *)
Definition is_foreign (elId : string) (ev : event) : bool :=
  match ev with
  | AddProgressItem i _ _ _ _ => negb (bool_decide (i = elId))
  | StopProgressItem i => negb (bool_decide (i = elId))
  | _ => false
  end.

(** A progress notification that shows 100% or more. *)
Definition is_add_from_100 (ev : event) : bool :=
  match ev with
  | AddProgressItem _ _ _ _ p => 100 <=? p
  | _ => false
  end.

(** A progress notification that shows anything but 100%. *)
Definition is_add_off_100 (ev : event) : bool :=
  match ev with
  | AddProgressItem _ _ _ _ p => negb (p =? 100)
  | _ => false
  end.

Definition is_remove_task (name : string) (ev : event) : bool :=
  match ev with
  | RemoveActiveTask n => bool_decide (n = name)
  | _ => false
  end.

Definition is_remove_task_any (ev : event) : bool :=
  match ev with RemoveActiveTask _ => true | _ => false end.

(** A dialog: the installed, failed-install or failed-update modal. *)
Definition is_dialog (ev : event) : bool :=
  match ev with
  | ShowInstalled _ | ShowFailedInstall _ _ | ShowFailedUpdateDownload => true
  | _ => false
  end.

Definition is_exec (ev : event) : bool :=
  match ev with Exec _ _ => true | _ => false end.

Definition is_set_configuration (ev : event) : bool :=
  match ev with SetConfiguration _ => true | _ => false end.

(** A transfer that has reached 100%. *)
Definition at100 : snapshot :=
  {| getProgress := Num 100; getProgressMB := Num 100; getSizeMB := Num 100 |}.

(** A state in which the timer callback is pending and nothing else has
    happened. *)
Definition armed : state :=
  {| fs := ∅; log := []; haltProgress := false; timer := true;
     simitoneVersion := "" |}.

(** The state with no timer callback pending. *)
Definition disarmed (s : state) : state :=
  {| fs := fs s; log := log s; haltProgress := haltProgress s;
     timer := false; simitoneVersion := simitoneVersion s |}.

(** With progress reporting halted, [m] never changes what [f] observes and
    leaves progress reporting halted. *)
Definition keeps_halted {A X} (f : state → X) (m : M A) : Prop :=
  ∀ s, haltProgress s = true →
       f (m s).2 = f s ∧ haltProgress (m s).2 = true.

(** How a chain of steps settles when each step reports its own error, if
    any: the first error wins. *)
Fixpoint first_error (errs : list (option string)) : outcome unit :=
  match errs with
  | [] => Resolved tt
  | Some err :: _ => Rejected err
  | None :: errs' => first_error errs'
  end.

(** * Properties *)

(** ** The monad *)

Lemma bind_run {A B} (m : M A) (k : A → M B) (s : state) :
  (m ≫= k) s =
  match m s with
  | (Resolved a, s') => k a s'
  | (Rejected e, s') => (Rejected e, s')
  end.
Proof. reflexivity. Qed.

Lemma catch_run {A} (m : M A) (h : string → M A) (s : state) :
  catch m h s =
  match m s with
  | (Resolved a, s') => (Resolved a, s')
  | (Rejected e, s') => h e s'
  end.
Proof. reflexivity. Qed.

Lemma count_app (f : event → bool) (l1 l2 : list event) :
  count f (l1 ++ l2) = (count f l1 + count f l2)%nat.
Proof.
  induction l1 as [|ev l1 IH]; simpl; [reflexivity|].
  rewrite IH. lia.
Qed.

Section Keeps.
Context {X : Type} (f : state → X).

Lemma keeps_ret {A} (a : A) : keeps f (mret a).
Proof. intros s. reflexivity. Qed.

Lemma keeps_reject {A} (e : string) : keeps f (@reject A e).
Proof. intros s. reflexivity. Qed.

Lemma keeps_get {A} (g : state → A) : keeps f (get g).
Proof. intros s. reflexivity. Qed.

Lemma keeps_bind {A B} (m : M A) (k : A → M B) :
  keeps f m → (∀ a, keeps f (k a)) → keeps f (m ≫= k).
Proof.
  intros Hm Hk s. rewrite bind_run.
  specialize (Hm s). destruct (m s) as [[a|e] s1]; simpl in *.
  - rewrite Hk. exact Hm.
  - exact Hm.
Qed.

Lemma keeps_catch {A} (m : M A) (h : string → M A) :
  keeps f m → (∀ e, keeps f (h e)) → keeps f (catch m h).
Proof.
  intros Hm Hh s. rewrite catch_run.
  specialize (Hm s). destruct (m s) as [[a|e] s1]; simpl in *.
  - exact Hm.
  - rewrite Hh. exact Hm.
Qed.

Lemma keeps_for_each {A} (g : A → M unit) (l : list A) :
  (∀ a, keeps f (g a)) → keeps f (for_each g l).
Proof.
  intros Hg. induction l as [|a l IH]; simpl.
  - apply keeps_ret.
  - apply keeps_bind; [apply Hg | intros _; exact IH].
Qed.

Lemma keeps_fire (callback : snapshot → M unit) (d : snapshot) :
  keeps f (callback d) → keeps f (fire callback d).
Proof.
  intros H. unfold fire. apply keeps_bind; [apply keeps_get|].
  intros [|]; [exact H | apply keeps_ret].
Qed.

Lemma keeps_run_ticks (callback : snapshot → M unit) (ds : list snapshot) :
  (∀ d, keeps f (callback d)) → keeps f (run_ticks callback ds).
Proof.
  intros H. apply keeps_for_each. intros d. apply keeps_fire, H.
Qed.

End Keeps.

(** Splits a [keeps] goal along the structure of the computation; what is
    left are the primitive state updates. *)
Ltac keeps_step :=
  first
    [ apply keeps_ret
    | apply keeps_reject
    | apply keeps_get
    | apply keeps_bind; [|intros ?]
    | apply keeps_catch; [|intros ?]
    | apply keeps_for_each; intros ?
    | apply keeps_run_ticks; intros ?
    | match goal with
      | |- keeps _ (if ?b then _ else _) => destruct b
      | |- keeps _ (match ?x with _ => _ end) => destruct x
      | |- keeps _ (let '(_, _) := ?x in _) => destruct x
      end ].

Ltac keeps_leaf :=
  let s := fresh "s" in
  intros s; unfold stops, stops_of; simpl;
  try rewrite count_app; simpl; try reflexivity; try lia.

Lemma resolves_run_ticks (callback : snapshot → M unit) (ds : list snapshot) :
  (∀ d, resolves (callback d)) → resolves (run_ticks callback ds).
Proof.
  intros H. induction ds as [|d ds IH]; intros s.
  - exists tt. reflexivity.
  - unfold run_ticks in *. simpl. rewrite bind_run.
    assert (Hd : ∃ a, (fire callback d s).1 = Resolved a).
    { unfold fire. rewrite bind_run. simpl.
      destruct (timer s); [apply H | exists tt; reflexivity]. }
    destruct Hd as [[] Hd].
    destruct (fire callback d s) as [o s1]; simpl in Hd; subst o.
    apply IH.
Qed.

(** ** What the terminal handlers do *)

Ltac unfold_steps :=
  unfold MacExtras.steps, MacExtras.step1, MacExtras.step2, MacExtras.step3,
    MacExtras.download, MacExtras.setupDir, MacExtras.extract, MacExtras.tick,
    MacExtras.createProgressItem, MacExtras.updateDownloadProgress,
    TSO.steps, TSO.step1, TSO.step2, TSO.step3, TSO.step4, TSO.step5,
    TSO.download, TSO.setupDir, TSO.extractZip, TSO.extractCabs,
    TSO.locateFirstCab, TSO.updateExtractionProgress, TSO.tick,
    TSO.createProgressItem, TSO.updateDownloadProgress,
    Simitone.steps, Simitone.step1, Simitone.step2, Simitone.step3,
    Simitone.step4, Simitone.step5, Simitone.download, Simitone.setupDir,
    Simitone.extract, Simitone.cleanup, Simitone.tick,
    Simitone.createProgressItem, Simitone.updateDownloadProgress,
    Update.steps, Update.step1, Update.download, Update.cleanup, Update.tick,
    Update.createProgressItem, Update.updateDownloadProgress,
    Unzip.unzip, Unzip.call, Cabinet.extract, Download.run, Download.cleanup.

Ltac run_prims :=
  unfold mbind, M_bind, mret, M_ret, set_fs, emit, get, set_halt, set_timer,
    set_version, reject, Fs.stat, Fs.unlink; simpl.

Ltac run_handler :=
  intros; run_prims;
  repeat (first [case_decide | case_bool_decide]; simpl);
  (eexists; split; [reflexivity|]); simpl;
  rewrite <- ?app_assoc; simpl;
  repeat split; try reflexivity; try set_solver.

Lemma is_stop_same (x : string) : is_stop x (StopProgressItem x) = true.
Proof. simpl. apply bool_decide_eq_true_2. reflexivity. Qed.

Lemma Download_cleanup_run (to : string) (s : state) :
  ∃ s', Download.cleanup to s = (Resolved tt, s')
        ∧ log s' = log s
        ∧ haltProgress s' = haltProgress s
        ∧ timer s' = timer s
        ∧ (to ∉ fs s')
        ∧ (to ∉ fs s → s' = s).
Proof. unfold Download.cleanup. run_handler. Qed.

Lemma MacExtras_end_run (C : Config) (i : MacExtras.installer) (s : state) :
  ∃ s', MacExtras.end_ C i s = (Resolved tt, s')
        ∧ log s' = log s ++
            [ AddProgressItem (MacExtras.elId i)
                (MacExtras.parentComponent i +:+ " MacExtras")
                (INS_IN (locale C) +:+ " " +:+ MacExtras.textPath C i)
                (INSTALLATION_FINISHED (locale C)) 100;
              SetProgressBar 2;
              StopProgressItem (MacExtras.elId i) ]
        ∧ (MacExtras.tempPath i ∉ fs s').
Proof.
  unfold MacExtras.end_, Download.cleanup, MacExtras.createProgressItem.
  run_handler.
Qed.

Lemma MacExtras_error_run (C : Config) (i : MacExtras.installer)
    (err : string) (s : state) :
  ∃ s', MacExtras.error C i err s = (Resolved tt, s')
        ∧ log s' = log s ++
            [ AddProgressItem (MacExtras.elId i)
                (MacExtras.parentComponent i +:+ " MacExtras")
                (INS_IN (locale C) +:+ " " +:+ MacExtras.textPath C i)
                (strFormat C (FSO_FAILED_INSTALLATION (locale C)) "macOS Extras") 100;
              SetProgressBar 2;
              StopProgressItem (MacExtras.elId i) ]
        ∧ (MacExtras.tempPath i ∉ fs s')
        ∧ haltProgress s' = true.
Proof.
  unfold MacExtras.error, Download.cleanup, MacExtras.createProgressItem.
  run_handler.
Qed.

Lemma TSO_end_run (C : Config) (i : TSO.installer) (s : state) :
  ∃ s', TSO.end_ C i s = (Resolved tt, s')
        ∧ log s' = log s ++
            [ AddProgressItem (TSO.elId i) "The Sims Online (FilePlanet)"
                (INS_IN (locale C) +:+ " " +:+ TSO.textPath C i)
                (INSTALLATION_FINISHED (locale C)) 100;
              SetProgressBar 2;
              StopProgressItem (TSO.elId i) ]
        ∧ (TSO.tempFilePath i ∉ fs s').
Proof.
  unfold TSO.end_, Download.cleanup, TSO.createProgressItem.
  run_handler.
Qed.

Lemma TSO_error_run (C : Config) (i : TSO.installer) (err : string) (s : state) :
  ∃ s', TSO.error C i err s = (Resolved tt, s')
        ∧ log s' = log s ++
            [ AddProgressItem (TSO.elId i) "The Sims Online (FilePlanet)"
                (INS_IN (locale C) +:+ " " +:+ TSO.textPath C i)
                (TSO_FAILED_INSTALLATION (locale C)) 100;
              SetProgressBar 2;
              StopProgressItem (TSO.elId i) ]
        ∧ (TSO.tempFilePath i ∉ fs s')
        ∧ haltProgress s' = true.
Proof.
  unfold TSO.error, Download.cleanup, TSO.createProgressItem.
  run_handler.
Qed.

Lemma Simitone_end_run (C : Config) (i : Simitone.installer) (s : state) :
  ∃ s', Simitone.end_ C i s = (Resolved tt, s')
        ∧ log s' = log s ++
            [ AddProgressItem (Simitone.elId i)
                ("Simitone Client " +:+ simitoneVersion s)
                ("Installing in " +:+ Simitone.path i)
                (INSTALLATION_FINISHED (locale C)) 100;
              StopProgressItem (Simitone.elId i);
              UpdateInstalledPrograms;
              RemoveActiveTask "Simitone" ]
            ++ (if bool_decide (simitoneVersion s = "") then []
                else [SetConfiguration ["Game"; "SimitoneVersion"; simitoneVersion s]])
            ++ [ ShowInstalled "Simitone" ]
        ∧ fs s' = fs s.
Proof.
  unfold Simitone.end_, Simitone.createProgressItem.
  run_handler.
Qed.

Lemma Simitone_error_run (C : Config) (i : Simitone.installer)
    (err : string) (s : state) :
  ∃ s', Simitone.error C i err s = (Rejected err, s')
        ∧ log s' = log s ++
            [ AddProgressItem (Simitone.elId i)
                ("Simitone Client " +:+ simitoneVersion s)
                ("Installing in " +:+ Simitone.path i)
                (FSO_FAILED_INSTALLATION (locale C)) 100;
              StopProgressItem (Simitone.elId i);
              RemoveActiveTask "Simitone";
              ShowFailedInstall "Simitone" err ]
        ∧ fs s' = fs s
        ∧ haltProgress s' = true.
Proof.
  unfold Simitone.error, Simitone.createProgressItem.
  run_handler.
Qed.

Lemma Update_end_run (C : Config) (i : Update.installer) (s : state) :
  ∃ s', Update.end_ C i s = (Resolved tt, s')
        ∧ log s' = log s ++
            [ AddProgressItem (Update.elId i) "FreeSO Launcher"
                ("Downloading from " +:+ updateLocation C)
                "Download finished. Setup will start..." 100;
              StopProgressItem (Update.elId i);
              ScheduleQuit;
              Exec "installer.exe" "temp" ]
        ∧ fs s' = fs s.
Proof.
  unfold Update.end_, Update.execute, Update.createProgressItem.
  run_handler.
Qed.

Lemma Update_error_run (C : Config) (i : Update.installer) (err : string)
    (s : state) :
  ∃ s',
    Update.error C i err s = (Rejected err, s')
    ∧ log s' = log s ++
        [ AddProgressItem (Update.elId i) "FreeSO Launcher"
            ("Downloading from " +:+ updateLocation C)
            (Update.failedMessage C) 100;
          StopProgressItem (Update.elId i);
          ShowFailedUpdateDownload ]
    ∧ fs s' = fs s
    ∧ haltProgress s' = true.
Proof.
  unfold Update.error, Update.createProgressItem.
  run_handler.
Qed.

(** ** Stop notifications *)

Lemma MacExtras_steps_stops C i e :
  keeps stops (MacExtras.steps C i e) ∧ ∀ x, keeps (stops_of x) (MacExtras.steps C i e).
Proof. split; [|intros x]; unfold_steps; repeat keeps_step; keeps_leaf. Qed.

Lemma TSO_steps_stops C i e :
  keeps stops (TSO.steps C i e) ∧ ∀ x, keeps (stops_of x) (TSO.steps C i e).
Proof. split; [|intros x]; unfold_steps; repeat keeps_step; keeps_leaf. Qed.

Lemma Simitone_steps_stops C i e :
  keeps stops (Simitone.steps C i e) ∧ ∀ x, keeps (stops_of x) (Simitone.steps C i e).
Proof. split; [|intros x]; unfold_steps; repeat keeps_step; keeps_leaf. Qed.

Lemma Update_steps_stops C i e :
  keeps stops (Update.steps C i e) ∧ ∀ x, keeps (stops_of x) (Update.steps C i e).
Proof. split; [|intros x]; unfold_steps; repeat keeps_step; keeps_leaf. Qed.

(** The shape shared by the four [install] methods: when the steps leave a
    counter alone and each terminal handler adds one to it, so does the run. *)
Lemma install_counts_once (f : state → nat) (steps end_ : M unit)
    (handler : string → M unit) :
  keeps f steps →
  (∀ s, ∃ s', end_ s = (Resolved tt, s') ∧ f s' = S (f s)) →
  (∀ err s, f (handler err s).2 = S (f s)) →
  ∀ s, f (catch (steps;; end_) handler s).2 = S (f s).
Proof.
  intros Hsteps Hend Hhandler s.
  rewrite catch_run, bind_run.
  specialize (Hsteps s).
  destruct (steps s) as [[[]|err] s1]; simpl in Hsteps.
  - destruct (Hend s1) as (s' & -> & Hs'). simpl. congruence.
  - rewrite Hhandler. congruence.
Qed.

Lemma stops_after (s s' : state) (l : list event) :
  log s' = log s ++ l → stops s' = (stops s + count is_stop_any l)%nat.
Proof. intros H. unfold stops. rewrite H. apply count_app. Qed.

Lemma stops_of_after (x : string) (s s' : state) (l : list event) :
  log s' = log s ++ l → stops_of x s' = (stops_of x s + count (is_stop x) l)%nat.
Proof. intros H. unfold stops_of. rewrite H. apply count_app. Qed.

Ltac count_stops H :=
  first
    [ rewrite (stops_after _ _ _ H)
    | rewrite (stops_of_after _ _ _ _ H) ];
  rewrite ?count_app; cbn [count is_stop_any app];
  rewrite ?is_stop_same; cbn [is_stop];
  repeat case_bool_decide; simpl; lia.

(** C5. Every run of every installer sends exactly one [stopProgressItem],
    and sends it for its own row: whatever the steps do and however the run
    settles, the number of stop notifications in the log, and the number of
    those for the run's own element id, both grow by exactly one. *)
Theorem stop_fires_exactly_once (C : Config) (s : state) :
  (∀ i e,
     stops_of (MacExtras.elId i) (MacExtras.install C i e s).2
       = S (stops_of (MacExtras.elId i) s)
     ∧ stops (MacExtras.install C i e s).2 = S (stops s))
  ∧ (∀ i e,
     stops_of (TSO.elId i) (TSO.install C i e s).2 = S (stops_of (TSO.elId i) s)
     ∧ stops (TSO.install C i e s).2 = S (stops s))
  ∧ (∀ i e,
     stops_of (Simitone.elId i) (Simitone.install C i e s).2
       = S (stops_of (Simitone.elId i) s)
     ∧ stops (Simitone.install C i e s).2 = S (stops s))
  ∧ (∀ i e,
     stops_of (Update.elId i) (Update.install C i e s).2
       = S (stops_of (Update.elId i) s)
     ∧ stops (Update.install C i e s).2 = S (stops s)).
Proof.
  repeat split; intros; apply install_counts_once.
  all: try match goal with
           | |- keeps _ (MacExtras.steps _ _ _) => apply MacExtras_steps_stops
           | |- keeps _ (TSO.steps _ _ _) => apply TSO_steps_stops
           | |- keeps _ (Simitone.steps _ _ _) => apply Simitone_steps_stops
           | |- keeps _ (Update.steps _ _ _) => apply Update_steps_stops
           end.
  all: try (intros s0;
            first [ destruct (MacExtras_end_run C i s0) as (s' & -> & Hlog & _)
                  | destruct (TSO_end_run C i s0) as (s' & -> & Hlog & _)
                  | destruct (Simitone_end_run C i s0) as (s' & -> & Hlog & _)
                  | destruct (Update_end_run C i s0) as (s' & -> & Hlog & _) ];
            exists s'; split; [reflexivity|]; count_stops Hlog).
  all: intros err s0; rewrite ?bind_run;
    first [ destruct (MacExtras_error_run C i err s0) as (s' & -> & Hlog & _)
          | destruct (TSO_error_run C i err s0) as (s' & -> & Hlog & _)
          | destruct (Simitone_error_run C i err s0) as (s' & -> & Hlog & _)
          | destruct (Update_error_run C i err s0) as (s' & -> & Hlog & _) ];
    simpl; count_stops Hlog.
Qed.

(** ** Failures *)

(** The shape shared by the four [install] methods when a step rejects. *)
Lemma install_rejected (steps end_ : M unit) (handler : string → M unit)
    (s s1 : state) (err : string) :
  steps s = (Rejected err, s1) →
  catch (steps;; end_) handler s = handler err s1.
Proof. intros H. rewrite catch_run, bind_run, H. reflexivity. Qed.

(** C4, as the code has it. When a step of a run rejects with [err], the
    [install] promise rejects with that same [err] and the error handler adds
    exactly one progress notification, at 100% and with the installer's fixed
    failure message, followed by the stop notification. The fixed message does
    not depend on [err]; only Simitone passes [err] on, in a separate
    failed-install dialog. *)
Theorem failure_is_reported_and_rethrown (C : Config) :
  (∀ i e s s1 err,
     MacExtras.steps C i e s = (Rejected err, s1) →
     ∃ s', MacExtras.install C i e s = (Rejected err, s')
           ∧ log s' = log s1 ++
               [ AddProgressItem (MacExtras.elId i)
                   (MacExtras.parentComponent i +:+ " MacExtras")
                   (INS_IN (locale C) +:+ " " +:+ MacExtras.textPath C i)
                   (strFormat C (FSO_FAILED_INSTALLATION (locale C)) "macOS Extras")
                   100;
                 SetProgressBar 2;
                 StopProgressItem (MacExtras.elId i) ])
  ∧ (∀ i e s s1 err,
     TSO.steps C i e s = (Rejected err, s1) →
     ∃ s', TSO.install C i e s = (Rejected err, s')
           ∧ log s' = log s1 ++
               [ AddProgressItem (TSO.elId i) "The Sims Online (FilePlanet)"
                   (INS_IN (locale C) +:+ " " +:+ TSO.textPath C i)
                   (TSO_FAILED_INSTALLATION (locale C)) 100;
                 SetProgressBar 2;
                 StopProgressItem (TSO.elId i) ])
  ∧ (∀ i e s s1 err,
     Simitone.steps C i e s = (Rejected err, s1) →
     ∃ s', Simitone.install C i e s = (Rejected err, s')
           ∧ log s' = log s1 ++
               [ AddProgressItem (Simitone.elId i)
                   ("Simitone Client " +:+ simitoneVersion s1)
                   ("Installing in " +:+ Simitone.path i)
                   (FSO_FAILED_INSTALLATION (locale C)) 100;
                 StopProgressItem (Simitone.elId i);
                 RemoveActiveTask "Simitone";
                 ShowFailedInstall "Simitone" err ])
  ∧ (∀ i e s s1 err,
     Update.steps C i e s = (Rejected err, s1) →
     ∃ s', Update.install C i e s = (Rejected err, s')
           ∧ log s' = log s1 ++
               [ AddProgressItem (Update.elId i) "FreeSO Launcher"
                   ("Downloading from " +:+ updateLocation C)
                   (Update.failedMessage C) 100;
                 StopProgressItem (Update.elId i);
                 ShowFailedUpdateDownload ]).
Proof.
  repeat split; intros i e s s1 err Hsteps.
  - unfold MacExtras.install. rewrite (install_rejected _ _ _ _ _ _ Hsteps), bind_run.
    destruct (MacExtras_error_run C i err s1) as (s' & -> & Hlog & _).
    exists s'. split; [reflexivity | exact Hlog].
  - unfold TSO.install. rewrite (install_rejected _ _ _ _ _ _ Hsteps), bind_run.
    destruct (TSO_error_run C i err s1) as (s' & -> & Hlog & _).
    exists s'. split; [reflexivity | exact Hlog].
  - unfold Simitone.install. rewrite (install_rejected _ _ _ _ _ _ Hsteps).
    destruct (Simitone_error_run C i err s1) as (s' & -> & Hlog & _).
    exists s'. split; [reflexivity | exact Hlog].
  - unfold Update.install. rewrite (install_rejected _ _ _ _ _ _ Hsteps).
    destruct (Update_error_run C i err s1) as (s' & -> & Hlog & _).
    exists s'. split; [reflexivity | exact Hlog].
Qed.

(** ** Computations that cannot reject *)

Lemma resolves_ret {A} (a : A) : resolves (mret a).
Proof. intros s. exists a. reflexivity. Qed.

Lemma resolves_get {A} (g : state → A) : resolves (get g).
Proof. intros s. exists (g s). reflexivity. Qed.

Lemma resolves_emit (ev : event) : resolves (emit ev).
Proof. intros s. exists tt. reflexivity. Qed.

Lemma resolves_set_fs (g : Fs.t → Fs.t) : resolves (set_fs g).
Proof. intros s. exists tt. reflexivity. Qed.

Lemma resolves_set_timer (b : bool) : resolves (set_timer b).
Proof. intros s. exists tt. reflexivity. Qed.

Lemma resolves_bind {A B} (m : M A) (k : A → M B) :
  resolves m → (∀ a, resolves (k a)) → resolves (m ≫= k).
Proof.
  intros Hm Hk s. rewrite bind_run.
  destruct (Hm s) as [a Ha]. destruct (m s) as [o s1]. simpl in Ha. subst o.
  apply Hk.
Qed.

Lemma resolves_for_each {A} (g : A → M unit) (l : list A) :
  (∀ a, resolves (g a)) → resolves (for_each g l).
Proof.
  intros Hg. induction l as [|a l IH]; simpl.
  - apply resolves_ret.
  - apply resolves_bind; [apply Hg | intros _; exact IH].
Qed.

Lemma resolved_unit (m : M unit) (s : state) :
  resolves m → m s = (Resolved tt, (m s).2).
Proof.
  intros H. destruct (H s) as [[] Ha]. destruct (m s) as [o s1].
  simpl in *. subst o. reflexivity.
Qed.

Ltac resolves_step :=
  first
    [ apply resolves_ret
    | apply resolves_get
    | apply resolves_emit
    | apply resolves_set_fs
    | apply resolves_set_timer
    | apply resolves_bind; [|intros ?]
    | apply resolves_for_each; intros ?
    | match goal with
      | |- resolves (if ?b then _ else _) => destruct b
      | |- resolves (match ?x with _ => _ end) => destruct x
      end ].

Lemma ticks_resolve (C : Config) (d : snapshot) :
  (∀ i, resolves (MacExtras.tick C i d))
  ∧ (∀ i, resolves (TSO.tick C i d))
  ∧ (∀ i, resolves (Simitone.tick C i d))
  ∧ (∀ i, resolves (Update.tick C i d)).
Proof. repeat split; intros i; unfold_steps; repeat resolves_step. Qed.

Lemma ticks_keep_fs (C : Config) (d : snapshot) :
  (∀ i, keeps fs (MacExtras.tick C i d))
  ∧ (∀ i, keeps fs (TSO.tick C i d))
  ∧ (∀ i, keeps fs (Simitone.tick C i d))
  ∧ (∀ i, keeps fs (Update.tick C i d)).
Proof. repeat split; intros i; unfold_steps; repeat keeps_step; keeps_leaf. Qed.

Lemma ticks_keep_halt (C : Config) (d : snapshot) :
  (∀ i, keeps haltProgress (MacExtras.tick C i d))
  ∧ (∀ i, keeps haltProgress (TSO.tick C i d))
  ∧ (∀ i, keeps haltProgress (Simitone.tick C i d))
  ∧ (∀ i, keeps haltProgress (Update.tick C i d)).
Proof. repeat split; intros i; unfold_steps; repeat keeps_step; keeps_leaf. Qed.

(** Elapsing deadlines never reject and never touch the filesystem. *)
Lemma run_ticks_run (callback : snapshot → M unit) (ds : list snapshot)
    (s : state) :
  (∀ d, resolves (callback d)) →
  (∀ d, keeps fs (callback d)) →
  ∃ s', run_ticks callback ds s = (Resolved tt, s') ∧ fs s' = fs s.
Proof.
  intros Hres Hkeeps. exists (run_ticks callback ds s).2. split.
  - apply resolved_unit, resolves_run_ticks, Hres.
  - apply (keeps_run_ticks fs), Hkeeps.
Qed.

Ltac pass_ticks C :=
  match goal with
  | |- context [run_ticks ?cb ?ds ?s] =>
      let s' := fresh "s" in
      let E := fresh "E" in
      let Hfs := fresh "Hfs" in
      destruct (run_ticks_run cb ds s) as (s' & E & Hfs);
      [ intros ?; apply (ticks_resolve C)
      | intros ?; apply (ticks_keep_fs C)
      | rewrite E; clear E; simpl ]
  end.

(** ** The temporary download artifact *)

Lemma Simitone_download_failed (C : Config) (i : Simitone.installer)
    (e : Simitone.env) (s : state) :
  Simitone.failed e = true →
  ∃ s', Simitone.download C i e s = (Rejected (FSO_NETWORK_ERROR (locale C)), s')
        ∧ (Simitone.tempPath i ∉ fs s').
Proof.
  intros Hfailed.
  unfold Simitone.download, Download.run, Simitone.updateDownloadProgress.
  repeat (rewrite bind_run; simpl). pass_ticks C. rewrite Hfailed.
  unfold Simitone.cleanup. run_handler.
Qed.

Lemma Simitone_download_done (C : Config) (i : Simitone.installer)
    (e : Simitone.env) (s : state) :
  Simitone.failed e = false →
  ∃ s', Simitone.download C i e s = (Resolved tt, s').
Proof.
  intros Hfailed.
  unfold Simitone.download, Download.run, Simitone.updateDownloadProgress.
  repeat (rewrite bind_run; simpl). pass_ticks C. rewrite Hfailed.
  eexists. reflexivity.
Qed.

Lemma Simitone_setupDir_run (C : Config) (i : Simitone.installer)
    (e : Simitone.env) (dir : string) (s : state) :
  ∃ s', Simitone.setupDir C i e dir s =
        (match Simitone.mkdirp_err e with
         | Some err => Rejected err
         | None => Resolved tt
         end, s').
Proof.
  unfold Simitone.setupDir. rewrite bind_run. pass_ticks C.
  destruct (Simitone.mkdirp_err e); eexists; reflexivity.
Qed.

Lemma Simitone_extract_run (C : Config) (i : Simitone.installer)
    (e : Simitone.env) (s : state) :
  ∃ s', Simitone.extract C i e s =
        (match Simitone.unzip_err e with
         | Some err => Rejected err
         | None => Resolved tt
         end, s')
        ∧ (Simitone.unzip_err e = None → Simitone.tempPath i ∉ fs s').
Proof.
  unfold Simitone.extract.
  rewrite bind_run. pass_ticks C.
  rewrite bind_run.
  rewrite (resolved_unit (Simitone.createProgressItem _ _ _))
    by (unfold_steps; repeat resolves_step).
  rewrite bind_run.
  rewrite (resolved_unit (for_each _ _)) by (unfold_steps; repeat resolves_step).
  destruct (Simitone.unzip_err e) as [err|].
  - eexists. split; [reflexivity | discriminate].
  - unfold Simitone.cleanup. run_handler.
Qed.

Lemma Simitone_step5_keeps_fs (C : Config) (i : Simitone.installer)
    (e : Simitone.env) :
  keeps fs (Simitone.step5 C i e).
Proof. unfold_steps; repeat keeps_step; keeps_leaf. Qed.

(** How the chain of Simitone steps settles, by what the outside world did,
    and whether the download artifact is still there when it has. *)
Lemma Simitone_steps_run (C : Config) (i : Simitone.installer)
    (e : Simitone.env) (s : state) :
  match Simitone.releaseInfo e with
  | Rejected err => Simitone.steps C i e s = (Rejected err, s)
  | Resolved _ =>
      if Simitone.failed e then
        ∃ s', Simitone.steps C i e s = (Rejected (FSO_NETWORK_ERROR (locale C)), s')
              ∧ (Simitone.tempPath i ∉ fs s')
      else
        match Simitone.mkdirp_err e, Simitone.unzip_err e with
        | Some err, _ => ∃ s', Simitone.steps C i e s = (Rejected err, s')
        | None, Some err => ∃ s', Simitone.steps C i e s = (Rejected err, s')
        | None, None =>
            ∃ o s', Simitone.steps C i e s = (o, s')
                    ∧ (Simitone.tempPath i ∉ fs s')
        end
  end.
Proof.
  unfold Simitone.steps, Simitone.step1, Simitone.step2, Simitone.step3,
    Simitone.step4.
  destruct (Simitone.releaseInfo e) as [tag|err]; [|reflexivity].
  rewrite bind_run.
  set (s1 := ((match tag with Some v => set_version v | None => mret tt end) s).2).
  assert (E1 : (match tag with Some v => set_version v | None => mret tt end) s
               = (Resolved tt, s1)) by (destruct tag; reflexivity).
  rewrite E1. clearbody s1. clear E1.
  rewrite bind_run.
  destruct (Simitone.failed e) eqn:Hfailed.
  { destruct (Simitone_download_failed C i e s1 Hfailed) as (s2 & -> & Hgone).
    exists s2. split; [reflexivity | exact Hgone]. }
  destruct (Simitone_download_done C i e s1 Hfailed) as (s2 & ->).
  rewrite bind_run.
  destruct (Simitone_setupDir_run C i e (Simitone.path i) s2) as (s3 & ->).
  destruct (Simitone.mkdirp_err e) as [err|]; [exists s3; reflexivity|].
  rewrite bind_run.
  destruct (Simitone_extract_run C i e s3) as (s4 & -> & Hgone).
  destruct (Simitone.unzip_err e) as [err|]; [exists s4; reflexivity|].
  pose proof (Simitone_step5_keeps_fs C i e s4) as Hkeep.
  destruct (Simitone.step5 C i e s4) as [o s5]. simpl in Hkeep.
  exists o, s5. split; [reflexivity|]. rewrite Hkeep. auto.
Qed.

Lemma Update_download_run (C : Config) (i : Update.installer) (e : Update.env)
    (s : state) :
  ∃ s' o, Update.download C i e s = (o, s')
          ∧ (if Update.failed e
             then (∃ err, o = Rejected err) ∧ Update.tempPath ∉ fs s'
             else o = Resolved tt ∧ Update.tempPath ∈ fs s').
Proof.
  unfold Update.download, Download.run, Update.updateDownloadProgress.
  repeat (rewrite bind_run; simpl). pass_ticks C.
  destruct (Update.failed e).
  - unfold Update.cleanup. run_prims.
    repeat (case_decide; simpl);
      (eexists; eexists; split; [reflexivity|]);
      (split; [eexists; reflexivity | set_solver]).
  - eexists. eexists. split; [reflexivity|]. split; [reflexivity|].
    rewrite Hfs. unfold Fs.write. set_solver.
Qed.

Lemma Simitone_download_there (C : Config) (i : Simitone.installer)
    (e : Simitone.env) (s : state) :
  Simitone.failed e = false →
  ∃ s', Simitone.download C i e s = (Resolved tt, s')
        ∧ Simitone.tempPath i ∈ fs s'.
Proof.
  intros Hfailed.
  unfold Simitone.download, Download.run, Simitone.updateDownloadProgress.
  repeat (rewrite bind_run; simpl). pass_ticks C. rewrite Hfailed.
  eexists. split; [reflexivity|]. rewrite Hfs. unfold Fs.write. set_solver.
Qed.

Lemma Simitone_setupDir_grows (C : Config) (i : Simitone.installer)
    (e : Simitone.env) (dir : string) (s : state) :
  ∃ s', Simitone.setupDir C i e dir s =
        (match Simitone.mkdirp_err e with
         | Some err => Rejected err
         | None => Resolved tt
         end, s')
        ∧ fs s ⊆ fs s'.
Proof.
  unfold Simitone.setupDir. rewrite bind_run. pass_ticks C.
  destruct (Simitone.mkdirp_err e); (eexists; split; [reflexivity|]);
    simpl; rewrite ?Hfs; unfold Fs.write; set_solver.
Qed.

Lemma Simitone_entries_grow (C : Config) (i : Simitone.installer)
    (entries : list string) (s : state) :
  fs s ⊆ fs (for_each (λ entry,
      set_fs (λ f, Fs.write f (Simitone.path i +:+ "\" +:+ entry));;
      Simitone.createProgressItem i
        (EXTRACTING_CLIENT_FILES (locale C) +:+ " " +:+ entry) 100)
      entries s).2.
Proof.
  revert s. induction entries as [|entry entries IH]; intros s; [reflexivity|].
  simpl. rewrite bind_run.
  unfold Simitone.createProgressItem at 1. run_prims.
  etransitivity; [|apply IH]. simpl. unfold Fs.write. set_solver.
Qed.

Lemma Simitone_extract_failed (C : Config) (i : Simitone.installer)
    (e : Simitone.env) (err : string) (s : state) :
  Simitone.unzip_err e = Some err →
  ∃ s', Simitone.extract C i e s = (Rejected err, s') ∧ fs s ⊆ fs s'.
Proof.
  intros Hunzip. unfold Simitone.extract.
  rewrite bind_run. pass_ticks C.
  rewrite bind_run.
  pose proof (Simitone_entries_grow C i (Simitone.unzip_entries e)) as Hgrow.
  unfold Simitone.createProgressItem at 1. run_prims.
  match goal with
  | |- context [for_each ?g ?l ?s1] =>
      specialize (Hgrow s1);
      rewrite (resolved_unit (for_each g l) s1)
        by (unfold_steps; repeat resolves_step)
  end.
  rewrite Hunzip. eexists. split; [reflexivity|].
  simpl in Hgrow. rewrite <- Hfs. exact Hgrow.
Qed.

(** C1, as the code has it. After a run has settled, the download artifact
    is gone
    - for macOS Extras and The Sims Online, always: [end] and [error] both call
      the download handle's cleanup;
    - for Simitone, when the run finishes, when the transfer fails, and
      whenever the archive stream has closed, which is where [extract] cleans
      up: so also when the run then fails at the registry step;
    - for the launcher update, when the transfer fails; when it succeeds the
      downloaded setup program is kept, because [end] goes on to execute it.
    A Simitone run that fails at the release lookup has downloaded nothing
    and leaves the filesystem as it found it. A Simitone run that fails at
    creating the installation directory or on an error of the archive stream
    ends as failed with the artifact still there: [error] removes nothing. *)
Theorem temp_artifact_removed (C : Config) :
  (∀ i e s, MacExtras.tempPath i ∉ fs (MacExtras.install C i e s).2)
  ∧ (∀ i e s, TSO.tempFilePath i ∉ fs (TSO.install C i e s).2)
  ∧ (∀ i e s,
       (Simitone.install C i e s).1 = Resolved tt →
       Simitone.tempPath i ∉ fs (Simitone.install C i e s).2)
  ∧ (∀ i e s tag,
       Simitone.releaseInfo e = Resolved tag →
       Simitone.failed e = true →
       Simitone.tempPath i ∉ fs (Simitone.install C i e s).2)
  ∧ (∀ i e s,
       Update.failed e = true →
       Update.tempPath ∉ fs (Update.install C i e s).2)
  ∧ (∀ i e s,
       Update.failed e = false →
       (Update.install C i e s).1 = Resolved tt
       ∧ Update.tempPath ∈ fs (Update.install C i e s).2)
  ∧ (∀ i e s tag,
       Simitone.releaseInfo e = Resolved tag →
       Simitone.failed e = false →
       Simitone.mkdirp_err e = None →
       Simitone.unzip_err e = None →
       Simitone.tempPath i ∉ fs (Simitone.install C i e s).2)
  ∧ (∀ i e s tag err,
       Simitone.releaseInfo e = Resolved tag →
       Simitone.failed e = false →
       Simitone.mkdirp_err e = None →
       Simitone.unzip_err e = None →
       Simitone.registry_err e = Some err →
       (Simitone.install C i e s).1 = Rejected err
       ∧ Simitone.tempPath i ∉ fs (Simitone.install C i e s).2)
  ∧ (∀ i e s err,
       Simitone.releaseInfo e = Rejected err →
       (Simitone.install C i e s).1 = Rejected err
       ∧ fs (Simitone.install C i e s).2 = fs s)
  ∧ (∀ i e s tag err,
       Simitone.releaseInfo e = Resolved tag →
       Simitone.failed e = false →
       Simitone.mkdirp_err e = Some err →
       (Simitone.install C i e s).1 = Rejected err
       ∧ Simitone.tempPath i ∈ fs (Simitone.install C i e s).2)
  ∧ (∀ i e s tag err,
       Simitone.releaseInfo e = Resolved tag →
       Simitone.failed e = false →
       Simitone.mkdirp_err e = None →
       Simitone.unzip_err e = Some err →
       (Simitone.install C i e s).1 = Rejected err
       ∧ Simitone.tempPath i ∈ fs (Simitone.install C i e s).2).
Proof.
  assert (Hclosed : ∀ i e s tag,
       Simitone.releaseInfo e = Resolved tag →
       Simitone.failed e = false →
       Simitone.mkdirp_err e = None →
       Simitone.unzip_err e = None →
       Simitone.tempPath i ∉ fs (Simitone.install C i e s).2).
  { intros i e s tag Hinfo Hfailed Hmkdirp Hunzip. unfold Simitone.install.
    rewrite catch_run, bind_run.
    pose proof (Simitone_steps_run C i e s) as Hsteps.
    rewrite Hinfo, Hfailed, Hmkdirp, Hunzip in Hsteps.
    destruct Hsteps as ([[]|err] & s1 & -> & Hgone).
    - destruct (Simitone_end_run C i s1) as (s' & -> & _ & Hfs).
      simpl. rewrite Hfs. exact Hgone.
    - destruct (Simitone_error_run C i err s1) as (s' & -> & _ & Hfs & _).
      simpl. rewrite Hfs. exact Hgone. }
  split; [|split; [|split; [|split; [|split; [|split; [|split; [|split;
    [|split; [|split]]]]]]]]].
  - intros i e s. unfold MacExtras.install. rewrite catch_run, bind_run.
    destruct (MacExtras.steps C i e s) as [[[]|err] s1].
    + destruct (MacExtras_end_run C i s1) as (s' & -> & _ & Hgone). exact Hgone.
    + rewrite bind_run.
      destruct (MacExtras_error_run C i err s1) as (s' & -> & _ & Hgone & _).
      exact Hgone.
  - intros i e s. unfold TSO.install. rewrite catch_run, bind_run.
    destruct (TSO.steps C i e s) as [[[]|err] s1].
    + destruct (TSO_end_run C i s1) as (s' & -> & _ & Hgone). exact Hgone.
    + rewrite bind_run.
      destruct (TSO_error_run C i err s1) as (s' & -> & _ & Hgone & _).
      exact Hgone.
  - intros i e s. unfold Simitone.install. rewrite catch_run, bind_run.
    pose proof (Simitone_steps_run C i e s) as Hsteps.
    destruct (Simitone.releaseInfo e) as [tag|err0].
    2: { rewrite Hsteps.
         destruct (Simitone_error_run C i err0 s) as (s' & -> & _). discriminate. }
    destruct (Simitone.failed e).
    { destruct Hsteps as (s1 & -> & _).
      destruct (Simitone_error_run C i (FSO_NETWORK_ERROR (locale C)) s1)
        as (s' & -> & _). discriminate. }
    destruct (Simitone.mkdirp_err e) as [err1|].
    { destruct Hsteps as (s1 & ->).
      destruct (Simitone_error_run C i err1 s1) as (s' & -> & _). discriminate. }
    destruct (Simitone.unzip_err e) as [err2|].
    { destruct Hsteps as (s1 & ->).
      destruct (Simitone_error_run C i err2 s1) as (s' & -> & _). discriminate. }
    destruct Hsteps as ([[]|err3] & s1 & -> & Hgone).
    + destruct (Simitone_end_run C i s1) as (s' & -> & _ & Hfs).
      intros _. simpl. rewrite Hfs. exact Hgone.
    + destruct (Simitone_error_run C i err3 s1) as (s' & -> & _). discriminate.
  - intros i e s tag Hinfo Hfailed. unfold Simitone.install.
    rewrite catch_run, bind_run.
    pose proof (Simitone_steps_run C i e s) as Hsteps.
    rewrite Hinfo, Hfailed in Hsteps. destruct Hsteps as (s1 & -> & Hgone).
    destruct (Simitone_error_run C i (FSO_NETWORK_ERROR (locale C)) s1)
      as (s' & -> & _ & Hfs & _).
    simpl. rewrite Hfs. exact Hgone.
  - intros i e s Hfailed. unfold Update.install, Update.steps, Update.step1.
    rewrite catch_run, bind_run.
    destruct (Update_download_run C i e s) as (s1 & o & -> & Hrun).
    rewrite Hfailed in Hrun. destruct Hrun as ([err ->] & Hgone).
    destruct (Update_error_run C i err s1) as (s' & -> & _ & Hfs & _).
    simpl. rewrite Hfs. exact Hgone.
  - intros i e s Hdone. unfold Update.install, Update.steps, Update.step1.
    rewrite catch_run, bind_run.
    destruct (Update_download_run C i e s) as (s1 & o & -> & Hrun).
    rewrite Hdone in Hrun. destruct Hrun as (-> & Hthere).
    destruct (Update_end_run C i s1) as (s' & -> & _ & Hfs).
    simpl. rewrite Hfs. split; [reflexivity | exact Hthere].
  - exact Hclosed.
  - intros i e s tag err Hinfo Hfailed Hmkdirp Hunzip Hregistry.
    split; [|apply (Hclosed i e s tag); assumption].
    unfold Simitone.install. rewrite catch_run, bind_run.
    assert (Hout : (Simitone.steps C i e s).1 = Rejected err).
    { unfold Simitone.steps, Simitone.step1, Simitone.step2, Simitone.step3,
        Simitone.step4.
      rewrite Hinfo, bind_run.
      set (s1 := ((match tag with Some v => set_version v | None => mret tt end) s).2).
      assert (E1 : (match tag with Some v => set_version v | None => mret tt end) s
                   = (Resolved tt, s1)) by (destruct tag; reflexivity).
      rewrite E1. clearbody s1. clear E1. rewrite bind_run.
      destruct (Simitone_download_done C i e s1 Hfailed) as (s2 & ->).
      rewrite bind_run.
      destruct (Simitone_setupDir_run C i e (Simitone.path i) s2) as (s3 & ->).
      rewrite Hmkdirp, bind_run.
      destruct (Simitone_extract_run C i e s3) as (s4 & -> & _).
      rewrite Hunzip.
      unfold Simitone.step5. rewrite bind_run. pass_ticks C.
      run_prims. rewrite Hregistry. reflexivity. }
    destruct (Simitone.steps C i e s) as [o s1]. simpl in Hout. subst o.
    destruct (Simitone_error_run C i err s1) as (s' & -> & _). reflexivity.
  - intros i e s err Hinfo. unfold Simitone.install.
    rewrite catch_run, bind_run.
    pose proof (Simitone_steps_run C i e s) as Hsteps.
    rewrite Hinfo in Hsteps. rewrite Hsteps.
    destruct (Simitone_error_run C i err s) as (s' & -> & _ & Hfs & _).
    split; [reflexivity | exact Hfs].
  - intros i e s tag err Hinfo Hfailed Hmkdirp.
    unfold Simitone.install. rewrite catch_run, bind_run.
    unfold Simitone.steps, Simitone.step1, Simitone.step2, Simitone.step3.
    rewrite Hinfo, bind_run.
    set (s1 := ((match tag with Some v => set_version v | None => mret tt end) s).2).
    assert (E1 : (match tag with Some v => set_version v | None => mret tt end) s
                 = (Resolved tt, s1)) by (destruct tag; reflexivity).
    rewrite E1. clearbody s1. clear E1. rewrite bind_run.
    destruct (Simitone_download_there C i e s1 Hfailed) as (s2 & -> & Hthere).
    rewrite bind_run.
    destruct (Simitone_setupDir_grows C i e (Simitone.path i) s2)
      as (s3 & -> & Hgrow).
    rewrite Hmkdirp.
    destruct (Simitone_error_run C i err s3) as (s' & -> & _ & Hfs & _).
    split; [reflexivity|]. simpl. rewrite Hfs. set_solver.
  - intros i e s tag err Hinfo Hfailed Hmkdirp Hunzip.
    unfold Simitone.install. rewrite catch_run, bind_run.
    unfold Simitone.steps, Simitone.step1, Simitone.step2, Simitone.step3,
      Simitone.step4.
    rewrite Hinfo, bind_run.
    set (s1 := ((match tag with Some v => set_version v | None => mret tt end) s).2).
    assert (E1 : (match tag with Some v => set_version v | None => mret tt end) s
                 = (Resolved tt, s1)) by (destruct tag; reflexivity).
    rewrite E1. clearbody s1. clear E1. rewrite bind_run.
    destruct (Simitone_download_there C i e s1 Hfailed) as (s2 & -> & Hthere).
    rewrite bind_run.
    destruct (Simitone_setupDir_grows C i e (Simitone.path i) s2)
      as (s3 & -> & Hgrow).
    rewrite Hmkdirp, bind_run.
    destruct (Simitone_extract_failed C i e err s3 Hunzip) as (s4 & -> & Hgrow').
    destruct (Simitone_error_run C i err s4) as (s' & -> & _ & Hfs & _).
    split; [reflexivity|]. simpl. rewrite Hfs. set_solver.
Qed.

(** ** The progress timer *)

(** With halted progress reporting, a timer callback that is silent once
    stays silent over any number of deadlines. *)
Lemma run_ticks_silent (callback : snapshot → M unit) (ds : list snapshot) :
  (∀ d, keeps haltProgress (callback d)) →
  (∀ d s, haltProgress s = true → log (callback d s).2 = log s) →
  ∀ s, haltProgress s = true → log (run_ticks callback ds s).2 = log s.
Proof.
  intros Hhalt Hsilent. unfold run_ticks.
  induction ds as [|d ds IH]; intros s Hs; [reflexivity|].
  simpl. rewrite bind_run.
  assert (Hfire : log (fire callback d s).2 = log s
                  ∧ haltProgress (fire callback d s).2 = true).
  { split.
    - unfold fire. rewrite bind_run. simpl.
      destruct (timer s); [apply Hsilent, Hs | reflexivity].
    - rewrite (keeps_fire haltProgress callback d (Hhalt d) s). exact Hs. }
  destruct (fire callback d s) as [[[]|err] s1]; simpl in Hfire.
  - rewrite IH; tauto.
  - tauto.
Qed.

(** With no callback pending, elapsing deadlines do nothing at all. *)
Lemma run_ticks_idle (callback : snapshot → M unit) (ds : list snapshot)
    (s : state) :
  timer s = false → run_ticks callback ds s = (Resolved tt, s).
Proof.
  intros Hidle. unfold run_ticks.
  induction ds as [|d ds IH]; [reflexivity|].
  simpl. rewrite bind_run. unfold fire at 1. rewrite bind_run. simpl.
  rewrite Hidle. simpl. exact IH.
Qed.

Lemma halted_ticks_silent (C : Config) (d : snapshot) (s : state) :
  haltProgress s = true →
  (∀ i, log (MacExtras.tick C i d s).2 = log s)
  ∧ (∀ i, log (TSO.tick C i d s).2 = log s)
  ∧ (∀ i, log (Simitone.tick C i d s).2 = log s)
  ∧ (∀ i, log (Update.tick C i d s).2 = log s).
Proof.
  intros Hs. repeat split; intros i; unfold_steps; run_prims; rewrite Hs; simpl.
  - destruct (MacExtras.percentage (getProgress d) <? 100); reflexivity.
  - reflexivity.
  - destruct (Simitone.percentage (getProgress d) <? 100); reflexivity.
  - destruct (getProgress d) as [p|]; [|reflexivity].
    destruct (p <? 100); reflexivity.
Qed.

(** C2, as the code has it. Once [haltProgress] is set, no timer callback
    of any installer emits a progress sample again, over any sequence of
    deadlines. Only the callback of The Sims Online also stops rescheduling
    itself. The callbacks of the other installers keep rescheduling
    themselves for as long as the reported progress stays below 100 (for the
    launcher update: is a number below 100). *)
Theorem halted_progress_is_silent (C : Config) (ds : list snapshot) (s : state) :
  haltProgress s = true →
  (∀ i, log (run_ticks (MacExtras.tick C i) ds s).2 = log s)
  ∧ (∀ i, log (run_ticks (TSO.tick C i) ds s).2 = log s)
  ∧ (∀ i, log (run_ticks (Simitone.tick C i) ds s).2 = log s)
  ∧ (∀ i, log (run_ticks (Update.tick C i) ds s).2 = log s)
  ∧ (∀ i d, timer (run_ticks (TSO.tick C i) (d :: ds) s).2 = false)
  ∧ (∀ i d, timer s = true →
       timer (fire (MacExtras.tick C i) d s).2
         = (MacExtras.percentage (getProgress d) <? 100))
  ∧ (∀ i d, timer s = true →
       timer (fire (Simitone.tick C i) d s).2
         = (Simitone.percentage (getProgress d) <? 100))
  ∧ (∀ i d, timer s = true →
       timer (fire (Update.tick C i) d s).2
         = match getProgress d with Num p => p <? 100 | NaN => false end).
Proof.
  intros Hs. repeat split.
  - intros i. apply run_ticks_silent; [|intros d s0 H0|exact Hs].
    + intros d. apply (ticks_keep_halt C).
    + apply (halted_ticks_silent C d s0 H0).
  - intros i. apply run_ticks_silent; [|intros d s0 H0|exact Hs].
    + intros d. apply (ticks_keep_halt C).
    + apply (halted_ticks_silent C d s0 H0).
  - intros i. apply run_ticks_silent; [|intros d s0 H0|exact Hs].
    + intros d. apply (ticks_keep_halt C).
    + apply (halted_ticks_silent C d s0 H0).
  - intros i. apply run_ticks_silent; [|intros d s0 H0|exact Hs].
    + intros d. apply (ticks_keep_halt C).
    + apply (halted_ticks_silent C d s0 H0).
  - intros i d. unfold run_ticks. simpl. rewrite bind_run.
    assert (Hfire : ∃ s1, fire (TSO.tick C i) d s = (Resolved tt, s1)
                          ∧ timer s1 = false).
    { unfold fire, TSO.tick. run_prims. destruct (timer s) eqn:Htimer; simpl.
      - rewrite Hs. eexists. split; reflexivity.
      - eexists. split; [reflexivity | exact Htimer]. }
    destruct Hfire as (s1 & -> & Hidle).
    fold (run_ticks (TSO.tick C i) ds). rewrite run_ticks_idle by exact Hidle.
    exact Hidle.
  - intros i d Htimer. unfold fire, MacExtras.tick, MacExtras.updateDownloadProgress.
    run_prims. rewrite Htimer, Hs. simpl.
    destruct (MacExtras.percentage (getProgress d) <? 100); reflexivity.
  - intros i d Htimer. unfold fire, Simitone.tick, Simitone.updateDownloadProgress.
    run_prims. rewrite Htimer, Hs. simpl.
    destruct (Simitone.percentage (getProgress d) <? 100); reflexivity.
  - intros i d Htimer. unfold fire, Update.tick, Update.updateDownloadProgress.
    run_prims. rewrite Htimer. simpl.
    destruct (getProgress d) as [p|]; [|reflexivity].
    destruct (p <? 100); simpl; rewrite ?Hs; reflexivity.
Qed.

(** ** The percentage *)

Lemma toFixed0_ratio (b t : Z) :
  0 ≤ b → 0 < t →
  toFixed0 (inject_Z b / inject_Z t * 100)%Q = spec_round b t.
Proof.
  intros Hb Ht. destruct t as [|p|p]; try lia.
  unfold toFixed0.
  assert (Hpos : Qle_bool 0 (inject_Z b / inject_Z (Z.pos p) * 100)%Q = true).
  { apply Qle_bool_iff. unfold Qle, Qdiv, Qmult, Qinv, inject_Z. simpl. nia. }
  rewrite Hpos. unfold spec_round, Qfloor, Qplus, Qdiv, Qmult, Qinv, inject_Z.
  simpl Qnum. simpl Qden.
  rewrite ?Pos2Z.inj_mul. f_equal; lia.
Qed.





(** ** Run identifiers *)

Lemma prefixed_id_inj (prefix : string) (id1 id2 : Z) :
  prefix +:+ pretty id1 = prefix +:+ pretty id2 → id1 = id2.
Proof.
  intros H. apply (inj (String.app prefix)) in H.
  apply (inj pretty) in H. exact H.
Qed.

Lemma a_second_apart (now1 now2 : Z) :
  now1 + 1000 ≤ now2 → now1 / 1000 ≠ now2 / 1000.
Proof. intros H. Z.div_mod_to_equations. lia. Qed.

Lemma prefixes_differ (x y : Z) :
  "TSOProgressItem" +:+ pretty x ≠ "FSOProgressItem" +:+ pretty y
  ∧ "TSOProgressItem" +:+ pretty x ≠ "FSOUpdateProgressItem" +:+ pretty y
  ∧ "FSOUpdateProgressItem" +:+ pretty x ≠ "FSOProgressItem" +:+ pretty y.
Proof.
  repeat split; intros H; cbv beta iota delta [String.append] in H;
    discriminate H.
Qed.

(** C6, as the code has it. The run id is the construction time in whole
    seconds, and the key of a progress row is a prefix followed by the id:
    [FSOProgressItem] for macOS Extras and for Simitone, [TSOProgressItem] for
    The Sims Online, [FSOUpdateProgressItem] for the launcher update.
    - Two runs constructed at least 1000 ms apart, or more generally in
      different whole seconds, have different ids and address different
      progress rows, whichever installers they belong to.
    - Two runs constructed within the same second share their id; they
      address the same progress row when they belong to the same installer,
      and when one is a macOS Extras run and the other a Simitone run.
    - A run of The Sims Online or of the launcher update never addresses a
      row of another installer, whatever the ids. *)
Theorem run_ids_differ_across_seconds (C : Config) (now1 now2 : Z) :
  ((∀ p c, MacExtras.id (MacExtras.constructor C now1 p c) = now1 / 1000)
   ∧ (∀ p, TSO.id (TSO.constructor C now1 p) = now1 / 1000)
   ∧ (∀ p, Simitone.id (Simitone.constructor p now1) = now1 / 1000)
   ∧ Update.id (Update.constructor now1) = now1 / 1000)
  ∧ (now1 + 1000 ≤ now2 ∨ now2 + 1000 ≤ now1 ∨ now1 / 1000 ≠ now2 / 1000 →
     now1 / 1000 ≠ now2 / 1000
     ∧ (∀ p1 c1 p2 c2,
        MacExtras.elId (MacExtras.constructor C now1 p1 c1)
          ≠ MacExtras.elId (MacExtras.constructor C now2 p2 c2))
     ∧ (∀ p1 p2,
        TSO.elId (TSO.constructor C now1 p1) ≠ TSO.elId (TSO.constructor C now2 p2))
     ∧ (∀ p1 p2,
        Simitone.elId (Simitone.constructor p1 now1)
          ≠ Simitone.elId (Simitone.constructor p2 now2))
     ∧ Update.elId (Update.constructor now1) ≠ Update.elId (Update.constructor now2)
     ∧ (∀ p1 c1 p2,
        MacExtras.elId (MacExtras.constructor C now1 p1 c1)
          ≠ Simitone.elId (Simitone.constructor p2 now2))
     ∧ (∀ p1 p2 c2,
        Simitone.elId (Simitone.constructor p1 now1)
          ≠ MacExtras.elId (MacExtras.constructor C now2 p2 c2)))
  ∧ (now1 / 1000 = now2 / 1000 →
     (∀ p1 c1 p2 c2,
        MacExtras.id (MacExtras.constructor C now1 p1 c1)
          = MacExtras.id (MacExtras.constructor C now2 p2 c2)
        ∧ MacExtras.elId (MacExtras.constructor C now1 p1 c1)
          = MacExtras.elId (MacExtras.constructor C now2 p2 c2))
     ∧ (∀ p1 p2,
        TSO.id (TSO.constructor C now1 p1) = TSO.id (TSO.constructor C now2 p2)
        ∧ TSO.elId (TSO.constructor C now1 p1)
          = TSO.elId (TSO.constructor C now2 p2))
     ∧ (∀ p1 p2,
        Simitone.id (Simitone.constructor p1 now1)
          = Simitone.id (Simitone.constructor p2 now2)
        ∧ Simitone.elId (Simitone.constructor p1 now1)
          = Simitone.elId (Simitone.constructor p2 now2))
     ∧ (Update.id (Update.constructor now1) = Update.id (Update.constructor now2)
        ∧ Update.elId (Update.constructor now1)
          = Update.elId (Update.constructor now2))
     ∧ (∀ p1 c1 p2,
        MacExtras.elId (MacExtras.constructor C now1 p1 c1)
          = Simitone.elId (Simitone.constructor p2 now2)))
  ∧ (∀ (t : TSO.installer) (u : Update.installer) (m : MacExtras.installer)
       (k : Simitone.installer),
       TSO.elId t ≠ MacExtras.elId m
       ∧ TSO.elId t ≠ Simitone.elId k
       ∧ TSO.elId t ≠ Update.elId u
       ∧ Update.elId u ≠ MacExtras.elId m
       ∧ Update.elId u ≠ Simitone.elId k).
Proof.
  split; [|split; [|split]].
  - repeat split.
  - intros Hapart.
    assert (Hsec : now1 / 1000 ≠ now2 / 1000).
    { destruct Hapart as [H|[H|H]]; [| |exact H].
      - exact (a_second_apart now1 now2 H).
      - intros Heq. exact (a_second_apart now2 now1 H (eq_sym Heq)). }
    split; [exact Hsec|].
    split; [|split; [|split; [|split; [|split]]]]; intros;
      intros Heq; apply prefixed_id_inj in Heq; simpl in Heq; contradiction.
  - intros Hsec.
    split; [|split; [|split; [|split]]]; intros;
      unfold MacExtras.elId, TSO.elId, Simitone.elId, Update.elId; simpl;
      rewrite ?Hsec; repeat split; reflexivity.
  - intros t u m k.
    unfold MacExtras.elId, TSO.elId, Simitone.elId, Update.elId.
    split; [|split; [|split; [|split]]]; apply prefixes_differ.
Qed.

(** ** Locating the first cabinet *)

Lemma cabinet_end_run (C : Config) (i : TSO.installer) (gc : Unzip.cleaner)
    (err : option string) (s : state) :
  ∃ s',
    (Unzip.call gc;;
     Download.cleanup (TSO.tempFilePath i);;
     match err with
     | Some err => reject ("The Sims Online extraction failed: " +:+ err)
     | None => mret tt
     end) s
    = (match err with
       | Some err => Rejected ("The Sims Online extraction failed: " +:+ err)
       | None => Resolved tt
       end, s').
Proof.
  unfold Unzip.call, Download.cleanup. run_prims.
  destruct err; repeat (case_decide; simpl); eexists; reflexivity.
Qed.

(** C7. [extractCabs] looks for the first cabinet under the primary naming
    first and settles on the root-level naming when nothing exists there.
    When the cabinet exists under neither naming, the run rejects with an
    extraction error; when it exists under one of them, the extractor is
    given a cabinet that exists and the step settles as the extractor does. *)
Theorem first_cabinet_lookup (C : Config) (i : TSO.installer) (e : TSO.env)
    (gc : Unzip.cleaner) (s : state) :
  TSO.pathExists_err e = None →
  TSO.locateFirstCab C e s
    = (Resolved (if Fs.pathExists (fs s) (TSO.firstCabPath C)
                 then TSO.firstCabPath C else TSO.rootCabPath C), s)
  ∧ (TSO.firstCabPath C ∉ fs s → TSO.rootCabPath C ∉ fs s →
       (TSO.extractCabs C i e gc s).1
         = Rejected ("The Sims Online extraction failed: "
                       +:+ Cabinet.missing (TSO.rootCabPath C)))
  ∧ (TSO.firstCabPath C ∈ fs s ∨ TSO.rootCabPath C ∈ fs s →
       (TSO.extractCabs C i e gc s).1
         = match TSO.cab_err e with
           | Some err => Rejected ("The Sims Online extraction failed: " +:+ err)
           | None => Resolved tt
           end).
Proof.
  intros Hthrow.
  assert (Hlocate : ∀ s0, TSO.locateFirstCab C e s0
            = (Resolved (if Fs.pathExists (fs s0) (TSO.firstCabPath C)
                         then TSO.firstCabPath C else TSO.rootCabPath C), s0)).
  { intros s0. unfold TSO.locateFirstCab. rewrite Hthrow. run_prims.
    destruct (Fs.pathExists (fs s0) (TSO.firstCabPath C)); reflexivity. }
  split; [apply Hlocate|].
  assert (Hrun : ∀ from,
    from = (if Fs.pathExists (fs s) (TSO.firstCabPath C)
            then TSO.firstCabPath C else TSO.rootCabPath C) →
    (TSO.extractCabs C i e gc s).1
      = match (if Fs.pathExists (fs s) from then TSO.cab_err e
               else Some (Cabinet.missing from)) with
        | Some err => Rejected ("The Sims Online extraction failed: " +:+ err)
        | None => Resolved tt
        end).
  { intros from ->. unfold TSO.extractCabs. rewrite bind_run. pass_ticks C.
    rewrite bind_run, Hlocate, Hfs. unfold Cabinet.extract.
    rewrite bind_run. simpl. rewrite Hfs.
    destruct (Fs.pathExists (fs s)
                (if Fs.pathExists (fs s) (TSO.firstCabPath C)
                 then TSO.firstCabPath C else TSO.rootCabPath C)).
    - rewrite bind_run.
      rewrite (resolved_unit (for_each _ _))
        by (unfold_steps; repeat resolves_step).
      destruct (cabinet_end_run C i gc (TSO.cab_err e)
                  (for_each
                     (λ c, set_fs (λ f, Fs.write f (TSO.path i +:+ "/" +:+ Cabinet.file c));;
                           TSO.updateExtractionProgress C i c)
                     (TSO.cab_entries e) s0).2) as (s' & ->).
      reflexivity.
    - destruct (cabinet_end_run C i gc
                  (Some (Cabinet.missing
                           (if Fs.pathExists (fs s) (TSO.firstCabPath C)
                            then TSO.firstCabPath C else TSO.rootCabPath C))) s0)
        as (s' & ->).
      reflexivity. }
  unfold Fs.pathExists in *. split.
  - intros H1 H2. rewrite (Hrun _ eq_refl).
    rewrite (bool_decide_eq_false_2 _ H1), (bool_decide_eq_false_2 _ H2).
    reflexivity.
  - intros Hfound. rewrite (Hrun _ eq_refl).
    destruct (decide (TSO.firstCabPath C ∈ fs s)) as [H1|H1].
    + rewrite !(bool_decide_eq_true_2 _ H1). reflexivity.
    + destruct Hfound as [?|H2]; [contradiction|].
      rewrite (bool_decide_eq_false_2 _ H1), (bool_decide_eq_true_2 _ H2).
      reflexivity.
Qed.

(** ** The active-task marker *)

Lemma removeActiveTask_clears (name : string) (l : Launcher.t) :
  Launcher.isActive (Launcher.removeActiveTask name l) name = false.
Proof.
  unfold Launcher.isActive, Launcher.removeActiveTask. simpl.
  apply bool_decide_eq_false_2. rewrite list_elem_of_filter. tauto.
Qed.

(** C8. When the user declines the change-game-path confirmation, the
    handler clears the component's active-task marker although no pipeline
    was started, and the next install request for that component is
    accepted instead of being rejected as already installing. *)
Theorem declined_confirmation_clears_marker (o : Launcher.options)
    (l : Launcher.t) :
  (Events.onChangeGamePath false (Some o) l).1 = Resolved tt
  ∧ Launcher.isActive (Events.onChangeGamePath false (Some o) l).2
      (Launcher.component o) = false
  ∧ (Launcher.install (Launcher.component o)
       (Events.onChangeGamePath false (Some o) l).2).1 = Launcher.Accepted.
Proof.
  simpl. split; [reflexivity|]. split.
  - apply removeActiveTask_clears.
  - unfold Launcher.install. rewrite removeActiveTask_clears. reflexivity.
Qed.

(** ** Cleanup *)

Lemma MacExtras_cleanup_run (i : MacExtras.installer) (s : state) :
  ∃ s', MacExtras.cleanup i s = (Resolved tt, s')
        ∧ (MacExtras.tempPath i ∉ fs s')
        ∧ (MacExtras.tempPath i ∉ fs s → s' = s).
Proof.
  unfold MacExtras.cleanup. run_handler.
  all: destruct s; reflexivity.
Qed.

Lemma Simitone_cleanup_run (i : Simitone.installer) (s : state) :
  ∃ s', Simitone.cleanup i s = (Resolved tt, s')
        ∧ (Simitone.tempPath i ∉ fs s')
        ∧ (Simitone.tempPath i ∉ fs s → fs s' = fs s).
Proof. unfold Simitone.cleanup. run_handler. Qed.

Lemma Update_cleanup_run (s : state) :
  ∃ s', Update.cleanup s = (Resolved tt, s')
        ∧ (Update.tempPath ∉ fs s')
        ∧ (Update.tempPath ∉ fs s → s' = s).
Proof.
  unfold Update.cleanup. run_handler.
  all: destruct s; reflexivity.
Qed.

(** C9. Cleaning up is idempotent. When the temporary file does not exist,
    every [cleanup] returns at its [stat] guard without unlinking: the one
    of the macOS Extras installer, the one of the update installer and the
    one of the download handle leave the whole state as it is, the one of the
    Simitone installer leaves the filesystem as it is (it logs the [stat]
    error). So a second cleanup right after a first one changes nothing more,
    and neither does the cleanup of the failure handler of The Sims Online
    after the cabinet step has already cleaned up. *)
Theorem cleanup_is_idempotent (C : Config) (i : MacExtras.installer)
    (j : TSO.installer) (k : Simitone.installer) (err : string) (s : state) :
  (MacExtras.tempPath i ∉ fs s → MacExtras.cleanup i s = (Resolved tt, s))
  ∧ (MacExtras.cleanup i;; MacExtras.cleanup i) s = MacExtras.cleanup i s
  ∧ (TSO.tempFilePath j ∉ fs s →
       Download.cleanup (TSO.tempFilePath j) s = (Resolved tt, s))
  ∧ (Download.cleanup (TSO.tempFilePath j);; Download.cleanup (TSO.tempFilePath j)) s
      = Download.cleanup (TSO.tempFilePath j) s
  ∧ fs (TSO.error C j err (Download.cleanup (TSO.tempFilePath j) s).2).2
      = fs (Download.cleanup (TSO.tempFilePath j) s).2
  ∧ (Simitone.tempPath k ∉ fs s → fs (Simitone.cleanup k s).2 = fs s)
  ∧ fs ((Simitone.cleanup k;; Simitone.cleanup k) s).2 = fs (Simitone.cleanup k s).2
  ∧ (Update.tempPath ∉ fs s → Update.cleanup s = (Resolved tt, s))
  ∧ (Update.cleanup;; Update.cleanup) s = Update.cleanup s.
Proof.
  destruct (MacExtras_cleanup_run i s) as (s1 & E1 & Hgone1 & Hnoop1).
  destruct (Download_cleanup_run (TSO.tempFilePath j) s)
    as (s2 & E2 & _ & _ & _ & Hgone2 & Hnoop2).
  destruct (Simitone_cleanup_run k s) as (s3 & E3 & Hgone3 & Hnoop3).
  destruct (Update_cleanup_run s) as (s4 & E4 & Hgone4 & Hnoop4).
  split; [|split; [|split; [|split; [|split; [|split; [|split; [|split]]]]]]].
  - intros Habsent. rewrite E1, (Hnoop1 Habsent). reflexivity.
  - rewrite bind_run, E1.
    destruct (MacExtras_cleanup_run i s1) as (s1' & -> & _ & Hnoop).
    rewrite (Hnoop Hgone1). reflexivity.
  - intros Habsent. rewrite E2, (Hnoop2 Habsent). reflexivity.
  - rewrite bind_run, E2.
    destruct (Download_cleanup_run (TSO.tempFilePath j) s2)
      as (s2' & -> & _ & _ & _ & _ & Hnoop).
    rewrite (Hnoop Hgone2). reflexivity.
  - rewrite E2. simpl. unfold TSO.error. rewrite bind_run.
    destruct (Download_cleanup_run (TSO.tempFilePath j) s2)
      as (s2' & -> & _ & _ & _ & _ & Hnoop).
    rewrite (Hnoop Hgone2). reflexivity.
  - intros Habsent. rewrite E3. simpl. exact (Hnoop3 Habsent).
  - rewrite bind_run, E3.
    destruct (Simitone_cleanup_run k s3) as (s3' & -> & _ & Hnoop).
    simpl. exact (Hnoop Hgone3).
  - intros Habsent. rewrite E4, (Hnoop4 Habsent). reflexivity.
  - rewrite bind_run, E4.
    destruct (Update_cleanup_run s4) as (s4' & -> & _ & Hnoop).
    rewrite (Hnoop Hgone4). reflexivity.
Qed.

(** ** The installed-state probe *)

(** C10. [isInstalledInPath] always resolves and never rejects, and leaves
    the state alone: it resolves to [true] exactly when the probe executable
    exists at its fixed place below the destination, and to [false] when
    [stat] reports an error. *)
Theorem installed_probe_always_resolves (i : TSO.installer)
    (j : Simitone.installer) (s : state) :
  TSO.isInstalledInPath i s
    = (Resolved (bool_decide (TSO.path i +:+ "/TSOClient/TSOClient.exe" ∈ fs s)), s)
  ∧ (TSO.isInstalledInPath i s).1
    = Resolved (match Fs.stat (fs s) (TSO.path i +:+ "/TSOClient/TSOClient.exe") with
                | None => true
                | Some _ => false
                end)
  ∧ Simitone.isInstalledInPath j s
    = (Resolved (bool_decide (Simitone.path j +:+ "\Simitone.Windows.exe" ∈ fs s)), s)
  ∧ (Simitone.isInstalledInPath j s).1
    = Resolved (match Fs.stat (fs s) (Simitone.path j +:+ "\Simitone.Windows.exe") with
                | None => true
                | Some _ => false
                end).
Proof.
  unfold TSO.isInstalledInPath, Simitone.isInstalledInPath, Fs.stat.
  run_prims.
  repeat split; repeat case_decide; repeat case_bool_decide;
    try reflexivity; try contradiction; try discriminate.
Qed.

(** * The properties on concrete runs *)

(** Settles a decidable statement about concrete data by evaluating its
    decision procedure. *)
Ltac evaluate := apply (bool_decide_unpack _); vm_compute; exact I.

Lemma temp_artifact_removed_witness :
  (Simitone.install Sample.config Sample.simitone Sample.simitone_ok (initial ∅)).1
    = Resolved tt
  ∧ (Simitone.tempPath Sample.simitone
       ∉ fs (Simitone.install Sample.config Sample.simitone Sample.simitone_ok
               (initial ∅)).2)
  ∧ Simitone.failed Sample.simitone_net_fail = true
  ∧ (Simitone.tempPath Sample.simitone
       ∉ fs (Simitone.install Sample.config Sample.simitone
               Sample.simitone_net_fail (initial ∅)).2)
  ∧ Update.failed Sample.update_fail = true
  ∧ (Update.tempPath
       ∉ fs (Update.install Sample.config Sample.update Sample.update_fail
               (initial ∅)).2)
  ∧ Simitone.registry_err Sample.simitone_registry_fail = Some "Access is denied."
  ∧ (Simitone.install Sample.config Sample.simitone Sample.simitone_registry_fail
       (initial ∅)).1 = Rejected "Access is denied."
  ∧ (Simitone.tempPath Sample.simitone
       ∉ fs (Simitone.install Sample.config Sample.simitone
               Sample.simitone_registry_fail (initial ∅)).2)
  ∧ fs (Simitone.install Sample.config Sample.simitone Sample.simitone_lookup_fail
          (initial ∅)).2 = ∅
  ∧ (Simitone.tempPath Sample.simitone
       ∈ fs (Simitone.install Sample.config Sample.simitone Sample.simitone_dir_fail
               (initial ∅)).2)
  ∧ (Simitone.tempPath Sample.simitone
       ∈ fs (Simitone.install Sample.config Sample.simitone
               Sample.simitone_unzip_fail (initial ∅)).2).
Proof.
  pose proof (temp_artifact_removed Sample.config)
    as (_ & _ & Hfinished & Hnet & Hupdate & _ & _ & Hregistry & Hlookup
        & Hdir & Hunzip).
  split; [vm_compute; reflexivity|].
  split; [apply Hfinished; vm_compute; reflexivity|].
  split; [reflexivity|].
  split; [apply (Hnet _ _ _ (Some "v1.2.3")); reflexivity|].
  split; [reflexivity|].
  split; [apply Hupdate; reflexivity|].
  split; [reflexivity|].
  split; [apply (Hregistry _ _ _ (Some "v1.2.3")); reflexivity|].
  split; [apply (Hregistry _ _ _ (Some "v1.2.3") "Access is denied."); reflexivity|].
  split; [exact (proj2 (Hlookup Sample.simitone Sample.simitone_lookup_fail (initial ∅)
                          _ eq_refl))|].
  split; [eapply (Hdir _ _ _ (Some "v1.2.3")); reflexivity|].
  eapply (Hunzip _ _ _ (Some "v1.2.3")); reflexivity.
Defined.

(** C1 fails on the Simitone installer: when the archive stream signals an
    error the run ends as failed and the download artifact is still there. *)
Lemma simitone_artifact_left_behind :
  (Simitone.install Sample.config Sample.simitone Sample.simitone_unzip_fail
     (initial ∅)).1 = Rejected "invalid signature"
  ∧ Simitone.tempPath Sample.simitone
      ∈ fs (Simitone.install Sample.config Sample.simitone
              Sample.simitone_unzip_fail (initial ∅)).2.
Proof.
  split; [vm_compute; reflexivity|].
  evaluate.
Qed.

Lemma halted_progress_is_silent_witness :
  haltProgress halted = true
  ∧ log (run_ticks (MacExtras.tick Sample.config Sample.mac)
           [Sample.at40; Sample.at40] halted).2 = log halted
  ∧ timer (run_ticks (TSO.tick Sample.config Sample.tso)
             [Sample.at40; Sample.at40] halted).2 = false.
Proof.
  pose proof (halted_progress_is_silent Sample.config [Sample.at40] halted eq_refl)
    as (_ & _ & _ & _ & Htso & _).
  pose proof (halted_progress_is_silent Sample.config [Sample.at40; Sample.at40]
                halted eq_refl) as (Hmac & _).
  split; [reflexivity|].
  split; [apply Hmac | apply Htso].
Defined.

(** C2 fails on the macOS Extras installer: with progress reporting halted
    and the transfer stuck at 40%, the callback emits nothing but schedules
    itself again. *)
Lemma halted_timer_is_rescheduled :
  haltProgress halted = true
  ∧ timer (fire (MacExtras.tick Sample.config Sample.mac) Sample.at40 halted).2
    = true.
Proof. split; vm_compute; reflexivity. Qed.



Lemma failure_is_reported_and_rethrown_witness :
  ∃ s1 s',
    MacExtras.steps Sample.config Sample.mac Sample.mac_net_fail (initial ∅)
      = (Rejected "Network error", s1)
    ∧ MacExtras.install Sample.config Sample.mac Sample.mac_net_fail (initial ∅)
      = (Rejected "Network error", s')
    ∧ log s' = log s1 ++
        [ AddProgressItem "FSOProgressItem1" "FreeSO MacExtras"
            "Installing in GameComponents/FreeSO"
            "macOS Extras installation failed." 100;
          SetProgressBar 2;
          StopProgressItem "FSOProgressItem1" ].
Proof.
  pose proof (failure_is_reported_and_rethrown Sample.config) as (Hmac & _).
  set (r := MacExtras.steps Sample.config Sample.mac Sample.mac_net_fail (initial ∅)).
  assert (Hsteps : r = (Rejected "Network error", r.2)) by (vm_compute; reflexivity).
  destruct (Hmac _ _ _ _ _ Hsteps) as (s' & Hinstall & Hlog).
  exists r.2, s'. split; [exact Hsteps|]. split; [exact Hinstall | exact Hlog].
Defined.

(** C4 fails on the macOS Extras installer: the run rejects with the error
    of the failed step, but no notification the run sends carries it. *)
Lemma failure_notification_lacks_detail :
  (MacExtras.install Sample.config Sample.mac (Sample.mac_dir_fail Sample.eacces)
     (initial ∅)).1 = Rejected Sample.eacces
  ∧ ¬ ∃ ev,
        ev ∈ log (MacExtras.install Sample.config Sample.mac
                    (Sample.mac_dir_fail Sample.eacces) (initial ∅)).2
        ∧ carries Sample.eacces ev = true.
Proof.
  split; [vm_compute; reflexivity|].
  intros (ev & Hin & Hcarries).
  assert (Hall : forallb (λ ev, negb (carries Sample.eacces ev))
                   (log (MacExtras.install Sample.config Sample.mac
                           (Sample.mac_dir_fail Sample.eacces) (initial ∅)).2)
                 = true) by (vm_compute; reflexivity).
  rewrite forallb_forall in Hall. apply list_elem_of_In in Hin.
  specialize (Hall ev Hin). rewrite Hcarries in Hall. discriminate.
Qed.

Lemma run_ids_differ_across_seconds_witness :
  1000 + 1000 ≤ 2000
  ∧ MacExtras.elId (MacExtras.constructor Sample.config 1000 "/data/a" "FreeSO")
    ≠ MacExtras.elId (MacExtras.constructor Sample.config 2000 "/data/a" "FreeSO")
  ∧ MacExtras.elId (MacExtras.constructor Sample.config 1000 "/data/a" "FreeSO")
    ≠ Simitone.elId (Simitone.constructor "C:\Games\Simitone" 2000)
  ∧ 1000 / 1000 = 1999 / 1000
  ∧ MacExtras.elId (MacExtras.constructor Sample.config 1000 "/data/a" "FreeSO")
    = Simitone.elId (Simitone.constructor "C:\Games\Simitone" 1999)
  ∧ TSO.elId (TSO.constructor Sample.config 1000 "/data/b")
    = TSO.elId (TSO.constructor Sample.config 1999 "/data/c").
Proof.
  assert (Hapart : 1000 + 1000 ≤ 2000) by lia.
  destruct (run_ids_differ_across_seconds Sample.config 1000 2000)
    as (_ & Hdistinct & _).
  destruct (Hdistinct (or_introl Hapart)) as (_ & Hmac & _ & _ & _ & Hcross & _).
  destruct (run_ids_differ_across_seconds Sample.config 1000 1999)
    as (_ & _ & Hshared & _).
  destruct (Hshared eq_refl) as (_ & Htso & _ & _ & Hsame).
  split; [exact Hapart|].
  split; [apply Hmac|].
  split; [apply Hcross|].
  split; [reflexivity|].
  split; [apply Hsame | apply Htso].
Defined.

(** C6 fails within one second: two different macOS Extras runs, one for
    FreeSO and one for Simitone, constructed 999 ms apart get the same id and
    address the same progress row. *)
Lemma same_second_same_row :
  Sample.mac_for_freeso ≠ Sample.mac_for_simitone
  ∧ MacExtras.id Sample.mac_for_freeso = MacExtras.id Sample.mac_for_simitone
  ∧ MacExtras.elId Sample.mac_for_freeso = MacExtras.elId Sample.mac_for_simitone.
Proof.
  split; [|split; vm_compute; reflexivity].
  intros Heq. apply (f_equal MacExtras.parentComponent) in Heq.
  vm_compute in Heq. discriminate.
Qed.

Lemma first_cabinet_lookup_witness :
  TSO.pathExists_err Sample.tso_root = None
  ∧ TSO.locateFirstCab Sample.config Sample.tso_root Sample.cab_at_root
    = (Resolved "/data/temp/tsoclient/client/Data1.cab", Sample.cab_at_root)
  ∧ (TSO.extractCabs Sample.config Sample.tso Sample.tso_root Sample.gc
       Sample.cab_at_root).1 = Resolved tt
  ∧ (TSO.extractCabs Sample.config Sample.tso Sample.tso_no_cab Sample.gc
       (initial ∅)).1
    = Rejected ("The Sims Online extraction failed: "
                  +:+ Cabinet.missing "/data/temp/tsoclient/client/Data1.cab").
Proof.
  pose proof (first_cabinet_lookup Sample.config Sample.tso Sample.tso_root
                Sample.gc Sample.cab_at_root eq_refl) as (Hlocate & _ & Hfound).
  pose proof (first_cabinet_lookup Sample.config Sample.tso Sample.tso_no_cab
                Sample.gc (initial ∅) eq_refl) as (_ & Hmissing & _).
  split; [reflexivity|].
  split; [exact Hlocate|].
  split.
  - apply Hfound. right. evaluate.
  - apply Hmissing; evaluate.
Defined.

Lemma cleanup_is_idempotent_witness :
  (MacExtras.tempPath Sample.mac ∉ fs (initial ∅))
  ∧ MacExtras.cleanup Sample.mac (initial ∅) = (Resolved tt, initial ∅)
  ∧ (TSO.tempFilePath Sample.tso ∉ fs (initial ∅))
  ∧ Download.cleanup (TSO.tempFilePath Sample.tso) (initial ∅)
    = (Resolved tt, initial ∅).
Proof.
  pose proof (cleanup_is_idempotent Sample.config Sample.mac Sample.tso
                Sample.simitone "" (initial ∅)) as (Hmac & _ & Hdl & _).
  assert (H1 : MacExtras.tempPath Sample.mac ∉ fs (initial ∅))
    by (evaluate).
  assert (H2 : TSO.tempFilePath Sample.tso ∉ fs (initial ∅))
    by (evaluate).
  split; [exact H1|]. split; [exact (Hmac H1)|].
  split; [exact H2 | exact (Hdl H2)].
Defined.

(** * Further properties of the installers *)

(** ** How a run settles *)

Lemma MacExtras_download_run (C : Config) (i : MacExtras.installer)
    (e : MacExtras.env) (s : state) :
  ∃ s', MacExtras.download C i e s
        = (if MacExtras.hasFailed e
           then Rejected (FSO_NETWORK_ERROR (locale C)) else Resolved tt, s')
        ∧ fs s' = fs s ∪ {[ MacExtras.tempPath i ]}.
Proof.
  unfold MacExtras.download, Download.run, MacExtras.updateDownloadProgress.
  repeat (rewrite bind_run; simpl). pass_ticks C.
  destruct (MacExtras.hasFailed e); eexists; (split; [reflexivity | exact Hfs]).
Qed.

Lemma MacExtras_setupDir_run (C : Config) (i : MacExtras.installer)
    (e : MacExtras.env) (dir : string) (s : state) :
  ∃ s', MacExtras.setupDir C i e dir s
        = (match MacExtras.ensureDir_err e with
           | Some err => Rejected err
           | None => Resolved tt
           end, s')
        ∧ fs s' = match MacExtras.ensureDir_err e with
                  | Some _ => fs s
                  | None => fs s ∪ {[ dir ]}
                  end.
Proof.
  unfold MacExtras.setupDir. rewrite bind_run. pass_ticks C.
  destruct (MacExtras.ensureDir_err e); eexists; (split; [reflexivity|]);
    simpl; rewrite ?Hfs; reflexivity.
Qed.

Lemma MacExtras_extract_run (C : Config) (i : MacExtras.installer)
    (e : MacExtras.env) (s : state) :
  MacExtras.tempPath i ∈ fs s →
  ∃ s', MacExtras.extract C i e s
        = (match MacExtras.unzip_err e with
           | Some err => Rejected err
           | None => Resolved tt
           end, s').
Proof.
  intros Hthere. unfold MacExtras.extract, Unzip.unzip.
  rewrite bind_run. pass_ticks C.
  repeat (rewrite bind_run; simpl).
  unfold Fs.pathExists. rewrite bool_decide_eq_true_2 by (rewrite Hfs; exact Hthere).
  rewrite bind_run.
  rewrite (resolved_unit (for_each _ _)) by (unfold_steps; repeat resolves_step).
  destruct (MacExtras.unzip_err e); eexists; reflexivity.
Qed.

Lemma MacExtras_steps_outcome (C : Config) (i : MacExtras.installer)
    (e : MacExtras.env) (s : state) :
  (MacExtras.steps C i e s).1
  = first_error
      [ if MacExtras.hasFailed e then Some (FSO_NETWORK_ERROR (locale C)) else None;
        MacExtras.ensureDir_err e;
        MacExtras.unzip_err e ].
Proof.
  unfold MacExtras.steps, MacExtras.step1, MacExtras.step2, MacExtras.step3.
  rewrite bind_run.
  destruct (MacExtras_download_run C i e s) as (s1 & -> & Hfs1).
  destruct (MacExtras.hasFailed e); [reflexivity|].
  rewrite bind_run.
  destruct (MacExtras_setupDir_run C i e (MacExtras.path i) s1) as (s2 & -> & Hfs2).
  destruct (MacExtras.ensureDir_err e) as [err|]; [reflexivity|].
  destruct (MacExtras_extract_run C i e s2) as (s3 & ->).
  { rewrite Hfs2, Hfs1. set_solver. }
  simpl. destruct (MacExtras.unzip_err e); reflexivity.
Qed.

(** The shape shared by the four [install] methods: the run settles as its
    steps do, given that [end] resolves and the failure handler rejects with
    the error it is given. *)
Lemma install_settles_as_steps (steps end_ : M unit) (handler : string → M unit)
    (s : state) :
  resolves end_ →
  (∀ err s1, (handler err s1).1 = Rejected err) →
  (catch (steps;; end_) handler s).1 = (steps s).1.
Proof.
  intros Hend Hhandler. rewrite catch_run, bind_run.
  destruct (steps s) as [[[]|err] s1]; simpl.
  - destruct (Hend s1) as [[] H1]. destruct (end_ s1) as [o s2].
    simpl in H1. subst o. reflexivity.
  - apply Hhandler.
Qed.

Lemma handlers_settle (C : Config) :
  (∀ i, resolves (MacExtras.end_ C i))
  ∧ (∀ i, resolves (TSO.end_ C i))
  ∧ (∀ i, resolves (Simitone.end_ C i))
  ∧ (∀ i, resolves (Update.end_ C i))
  ∧ (∀ i err s, ((MacExtras.error C i err;; reject err : M unit) s).1 = Rejected err)
  ∧ (∀ i err s, ((TSO.error C i err;; reject err : M unit) s).1 = Rejected err)
  ∧ (∀ i err s, (Simitone.error C i err s).1 = Rejected err)
  ∧ (∀ i err s, (Update.error C i err s).1 = Rejected err).
Proof.
  split; [|split; [|split; [|split; [|split; [|split; [|split]]]]]].
  - intros i s. destruct (MacExtras_end_run C i s) as (s' & -> & _). eexists; reflexivity.
  - intros i s. destruct (TSO_end_run C i s) as (s' & -> & _). eexists; reflexivity.
  - intros i s. destruct (Simitone_end_run C i s) as (s' & -> & _). eexists; reflexivity.
  - intros i s. destruct (Update_end_run C i s) as (s' & -> & _). eexists; reflexivity.
  - intros i err s. rewrite bind_run.
    destruct (MacExtras_error_run C i err s) as (s' & -> & _). reflexivity.
  - intros i err s. rewrite bind_run.
    destruct (TSO_error_run C i err s) as (s' & -> & _). reflexivity.
  - intros i err s. destruct (Simitone_error_run C i err s) as (s' & -> & _). reflexivity.
  - intros i err s. destruct (Update_error_run C i err s) as (s' & -> & _). reflexivity.
Qed.

(** X1. A macOS Extras run settles by its first failing step, in the order
    transfer, destination directory, extraction: it rejects with the network
    error message when the transfer failed, whatever the later steps would
    have done, else with the error of [ensureDir], else with the error of the
    extractor, and it resolves exactly when none of the three fails. *)
Theorem macextras_first_failure_decides (C : Config) (i : MacExtras.installer)
    (e : MacExtras.env) (s : state) :
  (MacExtras.install C i e s).1
  = first_error
      [ if MacExtras.hasFailed e then Some (FSO_NETWORK_ERROR (locale C)) else None;
        MacExtras.ensureDir_err e;
        MacExtras.unzip_err e ].
Proof.
  destruct (handlers_settle C) as (Hend & _ & _ & _ & Hhandler & _).
  unfold MacExtras.install.
  rewrite install_settles_as_steps.
  - apply MacExtras_steps_outcome.
  - apply Hend.
  - intros err s1. apply Hhandler.
Qed.

Lemma Simitone_step5_run (C : Config) (i : Simitone.installer)
    (e : Simitone.env) (s : state) :
  ∃ s', Simitone.step5 C i e s
        = (match Simitone.registry_err e with
           | Some err => Rejected err
           | None => Resolved tt
           end, s').
Proof.
  unfold Simitone.step5. rewrite bind_run. pass_ticks C.
  run_prims. destruct (Simitone.registry_err e); eexists; reflexivity.
Qed.

Lemma Simitone_steps_outcome (C : Config) (i : Simitone.installer)
    (e : Simitone.env) (s : state) :
  (Simitone.steps C i e s).1
  = match Simitone.releaseInfo e with
    | Rejected err => Rejected err
    | Resolved _ =>
        first_error
          [ if Simitone.failed e then Some (FSO_NETWORK_ERROR (locale C)) else None;
            Simitone.mkdirp_err e;
            Simitone.unzip_err e;
            Simitone.registry_err e ]
    end.
Proof.
  unfold Simitone.steps, Simitone.step1, Simitone.step2, Simitone.step3,
    Simitone.step4.
  destruct (Simitone.releaseInfo e) as [tag|err]; [|reflexivity].
  rewrite bind_run.
  set (s1 := ((match tag with Some v => set_version v | None => mret tt end) s).2).
  assert (E1 : (match tag with Some v => set_version v | None => mret tt end) s
               = (Resolved tt, s1)) by (destruct tag; reflexivity).
  rewrite E1. clearbody s1. clear E1.
  rewrite bind_run.
  destruct (Simitone.failed e) eqn:Hfailed.
  { destruct (Simitone_download_failed C i e s1 Hfailed) as (s2 & -> & _).
    reflexivity. }
  destruct (Simitone_download_done C i e s1 Hfailed) as (s2 & ->).
  rewrite bind_run.
  destruct (Simitone_setupDir_run C i e (Simitone.path i) s2) as (s3 & ->).
  destruct (Simitone.mkdirp_err e) as [err|]; [reflexivity|].
  rewrite bind_run.
  destruct (Simitone_extract_run C i e s3) as (s4 & -> & _).
  destruct (Simitone.unzip_err e) as [err|]; [reflexivity|].
  destruct (Simitone_step5_run C i e s4) as (s5 & ->).
  simpl. destruct (Simitone.registry_err e); reflexivity.
Qed.

(** X2. A Simitone run settles by its first failing step, in the order
    release lookup, transfer, destination directory, extraction, registry
    entry: a rejected release lookup rejects the run before anything is
    downloaded, and the run resolves exactly when no step fails. *)
Theorem simitone_first_failure_decides (C : Config) (i : Simitone.installer)
    (e : Simitone.env) (s : state) :
  (Simitone.install C i e s).1
  = match Simitone.releaseInfo e with
    | Rejected err => Rejected err
    | Resolved _ =>
        first_error
          [ if Simitone.failed e then Some (FSO_NETWORK_ERROR (locale C)) else None;
            Simitone.mkdirp_err e;
            Simitone.unzip_err e;
            Simitone.registry_err e ]
    end.
Proof.
  destruct (handlers_settle C) as (_ & _ & Hend & _ & _ & _ & Hhandler & _).
  unfold Simitone.install.
  rewrite install_settles_as_steps.
  - apply Simitone_steps_outcome.
  - apply Hend.
  - intros err s1. apply Hhandler.
Qed.

(** ** The launcher update *)

(** Closes a [keeps] goal about a count of log entries at a primitive. *)
Ltac keeps_count :=
  let s := fresh "s" in
  intros s; simpl; rewrite ?count_app; simpl;
  repeat case_bool_decide; simpl; try lia; try congruence.

Lemma count_after (g : event → bool) (s s' : state) (l : list event) :
  log s' = log s ++ l → count g (log s') = (count g (log s) + count g l)%nat.
Proof. intros H. rewrite H. apply count_app. Qed.

Lemma Update_download_outcome (C : Config) (i : Update.installer)
    (e : Update.env) (s : state) :
  ∃ s', Update.download C i e s
        = (if Update.failed e
           then Rejected "FreeSO Launcher installation files have failed to download. You can try again later or download it yourself at beta.freeso.org/FreeSO Launcher Setup.exe"
           else Resolved tt, s')
        ∧ count is_exec (log s') = count is_exec (log s).
Proof.
  exists (Update.download C i e s).2. split.
  - unfold Update.download, Download.run, Update.updateDownloadProgress.
    repeat (rewrite bind_run; simpl). pass_ticks C.
    destruct (Update.failed e); [|reflexivity].
    unfold Update.cleanup. run_prims. repeat (case_decide; simpl); reflexivity.
  - assert (Hkeeps : keeps (λ s, count is_exec (log s)) (Update.download C i e)).
    { unfold_steps; repeat keeps_step; keeps_count. }
    apply Hkeeps.
Qed.

(** X3. The launcher update resolves exactly when the transfer did not fail,
    and it starts the downloaded setup program exactly once in that case and
    never after a failed transfer, which rejects with the fixed message that
    points to the manual download. *)
Theorem update_runs_setup_only_after_download (C : Config)
    (i : Update.installer) (e : Update.env) (s : state) :
  (Update.install C i e s).1
  = (if Update.failed e
     then Rejected "FreeSO Launcher installation files have failed to download. You can try again later or download it yourself at beta.freeso.org/FreeSO Launcher Setup.exe"
     else Resolved tt)
  ∧ count is_exec (log (Update.install C i e s).2)
    = (count is_exec (log s) + (if Update.failed e then 0 else 1))%nat.
Proof.
  unfold Update.install, Update.steps, Update.step1.
  rewrite catch_run, bind_run.
  destruct (Update_download_outcome C i e s) as (s1 & -> & Hexec).
  destruct (Update.failed e).
  - destruct (Update_error_run C i
      "FreeSO Launcher installation files have failed to download. You can try again later or download it yourself at beta.freeso.org/FreeSO Launcher Setup.exe" s1)
      as (s' & -> & Hlog & _).
    split; [reflexivity|]. simpl.
    rewrite (count_after _ _ _ _ Hlog), Hexec. simpl. lia.
  - destruct (Update_end_run C i s1) as (s' & -> & Hlog & _).
    split; [reflexivity|]. simpl.
    rewrite (count_after _ _ _ _ Hlog), Hexec. simpl. lia.
Qed.

(** ** The Sims Online run *)

Lemma TSO_download_run (C : Config) (i : TSO.installer) (e : TSO.env)
    (s : state) :
  ∃ s', TSO.download C i e s
        = (if TSO.hasFailed e
           then Rejected (FSO_NETWORK_ERROR (locale C)) else Resolved tt, s')
        ∧ fs s' = fs s ∪ {[ TSO.tempFilePath i ]}
        ∧ haltProgress s' = true.
Proof.
  unfold TSO.download, Download.run, TSO.updateDownloadProgress.
  repeat (rewrite bind_run; simpl). pass_ticks C.
  run_prims.
  destruct (TSO.hasFailed e); eexists;
    (split; [reflexivity | split; [exact Hfs | reflexivity]]).
Qed.

Lemma TSO_setupDir_run (C : Config) (i : TSO.installer) (e : TSO.env)
    (dir : string) (s : state) :
  ∃ s', TSO.setupDir C i e dir s
        = (match TSO.ensureDir_err e with
           | Some err => Rejected err
           | None => Resolved tt
           end, s')
        ∧ fs s' = match TSO.ensureDir_err e with
                  | Some _ => fs s
                  | None => fs s ∪ {[ dir ]}
                  end.
Proof.
  unfold TSO.setupDir. rewrite bind_run. pass_ticks C.
  destruct (TSO.ensureDir_err e); eexists; (split; [reflexivity|]);
    simpl; rewrite ?Hfs; reflexivity.
Qed.

(** What the extractor has written once it has notified every entry. *)
Lemma entries_written (to : string) (cb : string → M unit)
    (entries : list string) (s : state) :
  (∀ x, resolves (cb x)) →
  (∀ x, keeps fs (cb x)) →
  ∃ s', for_each (λ filename,
          set_fs (λ f, Fs.write f (to +:+ "/" +:+ filename));; cb filename)
          entries s = (Resolved tt, s')
        ∧ fs s ⊆ fs s'
        ∧ ∀ x, x ∈ entries → to +:+ "/" +:+ x ∈ fs s'.
Proof.
  intros Hres Hkeeps. revert s.
  induction entries as [|x entries IH]; intros s.
  - exists s. split; [reflexivity|]. split; [reflexivity|].
    intros x Hx. inversion Hx.
  - simpl. rewrite bind_run, bind_run. simpl.
    set (s1 := {| fs := Fs.write (fs s) (to +:+ "/" +:+ x); log := log s;
                  haltProgress := haltProgress s; timer := timer s;
                  simitoneVersion := simitoneVersion s |}).
    rewrite (resolved_unit (cb x) s1 (Hres x)).
    pose proof (Hkeeps x s1) as Hfs1.
    destruct (IH (cb x s1).2) as (s' & -> & Hsub & Hin).
    exists s'. split; [reflexivity|].
    assert (Hx : to +:+ "/" +:+ x ∈ fs (cb x s1).2).
    { rewrite Hfs1. simpl. unfold Fs.write. set_solver. }
    split.
    + intros p Hp. apply Hsub. rewrite Hfs1. simpl. unfold Fs.write. set_solver.
    + intros y Hy. apply elem_of_cons in Hy as [->|Hy]; [apply Hsub, Hx | apply Hin, Hy].
Qed.

Lemma TSO_createProgressItem_run (C : Config) (i : TSO.installer)
    (message : string) (percentage : Z) (s : state) :
  ∃ s', TSO.createProgressItem C i message percentage s = (Resolved tt, s')
        ∧ fs s' = fs s.
Proof. unfold TSO.createProgressItem. run_handler. Qed.

Lemma TSO_extractZip_run (C : Config) (i : TSO.installer) (e : TSO.env)
    (s : state) :
  TSO.tempFilePath i ∈ fs s →
  ∃ s', TSO.extractZip C i e s
        = (match TSO.unzip_err e with
           | Some err => Rejected err
           | None => Resolved {| Unzip.extracted_to := TSO.extractionDir C |}
           end, s')
        ∧ ∀ x, x ∈ TSO.unzip_entries e → TSO.extractionDir C +:+ "/" +:+ x ∈ fs s'.
Proof.
  intros Hthere. unfold TSO.extractZip, Unzip.unzip.
  rewrite bind_run. pass_ticks C.
  rewrite bind_run.
  destruct (TSO_createProgressItem_run C i
              "Extracting client files, please wait..." 100 s0)
    as (s1 & -> & Hfs1).
  rewrite bind_run. simpl.
  unfold Fs.pathExists.
  rewrite bool_decide_eq_true_2 by (rewrite Hfs1, Hfs; exact Hthere).
  rewrite bind_run.
  destruct (entries_written (TSO.extractionDir C)
              (λ filename, TSO.createProgressItem C i
                 (EXTRACTING_CLIENT_FILES (locale C) +:+ " " +:+ filename) 100)
              (TSO.unzip_entries e) s1)
    as (s' & -> & _ & Hin).
  { intros x. unfold_steps; repeat resolves_step. }
  { intros x. unfold_steps; repeat keeps_step; keeps_leaf. }
  exists s'. destruct (TSO.unzip_err e); (split; [reflexivity | exact Hin]).
Qed.

Lemma TSO_extractCabs_outcome (C : Config) (i : TSO.installer) (e : TSO.env)
    (gc : Unzip.cleaner) (s : state) :
  TSO.pathExists_err e = None →
  TSO.firstCabPath C ∈ fs s ∨ TSO.rootCabPath C ∈ fs s →
  (TSO.extractCabs C i e gc s).1
  = match TSO.cab_err e with
    | Some err => Rejected ("The Sims Online extraction failed: " +:+ err)
    | None => Resolved tt
    end.
Proof.
  intros Hthrow Hfound. unfold TSO.extractCabs.
  rewrite bind_run. pass_ticks C.
  rewrite bind_run. unfold TSO.locateFirstCab. rewrite Hthrow.
  assert (Hfrom : Fs.pathExists (fs s)
                    (if negb (Fs.pathExists (fs s) (TSO.firstCabPath C))
                     then TSO.rootCabPath C else TSO.firstCabPath C) = true).
  { unfold Fs.pathExists.
    destruct (decide (TSO.firstCabPath C ∈ fs s)) as [H1|H1].
    - rewrite (bool_decide_eq_true_2 _ H1). simpl.
      apply bool_decide_eq_true_2, H1.
    - rewrite (bool_decide_eq_false_2 _ H1). simpl.
      apply bool_decide_eq_true_2. tauto. }
  rewrite bind_run. simpl. rewrite Hfs.
  destruct (negb (Fs.pathExists (fs s) (TSO.firstCabPath C))); simpl;
    unfold Cabinet.extract; rewrite bind_run; simpl; rewrite Hfs, Hfrom;
    rewrite bind_run;
    match goal with
    | |- context [for_each ?g ?l ?st] =>
        rewrite (resolved_unit (for_each g l) st)
          by (unfold_steps; repeat resolves_step)
    end;
    unfold Unzip.call, Download.cleanup; run_prims;
    destruct (TSO.cab_err e); repeat (case_decide; simpl); reflexivity.
Qed.

Lemma TSO_step5_run (C : Config) (i : TSO.installer) (e : TSO.env) (s : state) :
  ∃ s', TSO.step5 C i e s
        = (match TSO.registry_err e with
           | Some err => Rejected err
           | None => Resolved tt
           end, s').
Proof.
  unfold TSO.step5. rewrite bind_run. pass_ticks C.
  run_prims. destruct (TSO.registry_err e); eexists; reflexivity.
Qed.

(** X4. When [pathExists] does not throw and the downloaded archive holds
    the first cabinet under one of the two namings, a run of The Sims Online
    installer settles by its first failing step, in the order transfer,
    destination directory, archive extraction, cabinet extraction, registry
    entry; only the cabinet extractor's error is wrapped into the "The Sims
    Online extraction failed" message. *)
Theorem tso_first_failure_decides (C : Config) (i : TSO.installer)
    (e : TSO.env) (s : state) :
  TSO.pathExists_err e = None →
  tso_firstCab (temp_TSO C) ∈ TSO.unzip_entries e
    ∨ tso_rootCab (temp_TSO C) ∈ TSO.unzip_entries e →
  (TSO.install C i e s).1
  = first_error
      [ if TSO.hasFailed e then Some (FSO_NETWORK_ERROR (locale C)) else None;
        TSO.ensureDir_err e;
        TSO.unzip_err e;
        match TSO.cab_err e with
        | Some err => Some ("The Sims Online extraction failed: " +:+ err)
        | None => None
        end;
        TSO.registry_err e ].
Proof.
  intros Hthrow Harchive.
  destruct (handlers_settle C) as (_ & Hend & _ & _ & _ & Hhandler & _).
  unfold TSO.install.
  rewrite install_settles_as_steps;
    [| apply Hend | intros err s1; apply Hhandler].
  unfold TSO.steps, TSO.step1, TSO.step2, TSO.step3, TSO.step4.
  rewrite bind_run.
  destruct (TSO_download_run C i e s) as (s1 & -> & Hfs1 & _).
  destruct (TSO.hasFailed e); [reflexivity|].
  rewrite bind_run.
  destruct (TSO_setupDir_run C i e (TSO.path i) s1) as (s2 & -> & Hfs2).
  destruct (TSO.ensureDir_err e) as [err|]; [reflexivity|].
  rewrite bind_run.
  destruct (TSO_extractZip_run C i e s2) as (s3 & -> & Hin).
  { rewrite Hfs2, Hfs1. set_solver. }
  destruct (TSO.unzip_err e) as [err|]; [reflexivity|].
  rewrite bind_run.
  pose proof (TSO_extractCabs_outcome C i e
                {| Unzip.extracted_to := TSO.extractionDir C |} s3 Hthrow) as Hcab.
  destruct (TSO.extractCabs C i e
              {| Unzip.extracted_to := TSO.extractionDir C |} s3) as [o4 s4].
  simpl in Hcab. rewrite Hcab.
  2: { destruct Harchive as [H|H]; [left|right]; apply Hin, H. }
  destruct (TSO.cab_err e) as [err|]; [reflexivity|].
  destruct (TSO_step5_run C i e s4) as (s5 & ->).
  simpl. destruct (TSO.registry_err e); reflexivity.
Qed.

(** ** A failed transfer leaves nothing behind *)

Lemma Download_cleanup_fs (to : string) (s : state) :
  fs (Download.cleanup to s).2 = fs s ∖ {[ to ]}.
Proof.
  unfold Download.cleanup. run_prims. unfold Fs.unlink.
  repeat (case_decide; simpl); set_solver.
Qed.

Lemma error_handlers_fs (C : Config) (err : string) (s : state) :
  (∀ i, fs (MacExtras.error C i err s).2 = fs s ∖ {[ MacExtras.tempPath i ]})
  ∧ (∀ i, fs (TSO.error C i err s).2 = fs s ∖ {[ TSO.tempFilePath i ]}).
Proof.
  split; intros i.
  - unfold MacExtras.error. rewrite bind_run.
    pose proof (Download_cleanup_fs (MacExtras.tempPath i) s) as Hfs.
    destruct (Download_cleanup_run (MacExtras.tempPath i) s) as (s1 & E & _).
    rewrite E in *. simpl in Hfs. rewrite <- Hfs.
    assert (Hk : keeps fs (set_halt true;;
                   MacExtras.createProgressItem C i
                     (strFormat C (FSO_FAILED_INSTALLATION (locale C)) "macOS Extras")
                     100;;
                   emit (StopProgressItem (MacExtras.elId i))))
      by (unfold_steps; repeat keeps_step; keeps_leaf).
    apply Hk.
  - unfold TSO.error. rewrite bind_run.
    pose proof (Download_cleanup_fs (TSO.tempFilePath i) s) as Hfs.
    destruct (Download_cleanup_run (TSO.tempFilePath i) s) as (s1 & E & _).
    rewrite E in *. simpl in Hfs. rewrite <- Hfs.
    assert (Hk : keeps fs (set_halt true;;
                   TSO.createProgressItem C i (TSO_FAILED_INSTALLATION (locale C)) 100;;
                   emit (StopProgressItem (TSO.elId i))))
      by (unfold_steps; repeat keeps_step; keeps_leaf).
    apply Hk.
Qed.

Lemma Simitone_download_failed_fs (C : Config) (i : Simitone.installer)
    (e : Simitone.env) (s : state) :
  Simitone.failed e = true →
  fs (Simitone.download C i e s).2 = fs s ∖ {[ Simitone.tempPath i ]}.
Proof.
  intros Hfailed.
  unfold Simitone.download, Download.run, Simitone.updateDownloadProgress.
  repeat (rewrite bind_run; simpl). pass_ticks C. rewrite Hfailed.
  unfold Simitone.cleanup. run_prims. unfold Fs.write in *.
  repeat (case_decide; simpl); set_solver.
Qed.

Lemma Update_download_failed_fs (C : Config) (i : Update.installer)
    (e : Update.env) (s : state) :
  Update.failed e = true →
  fs (Update.download C i e s).2 = fs s ∖ {[ Update.tempPath ]}.
Proof.
  intros Hfailed.
  unfold Update.download, Download.run, Update.updateDownloadProgress.
  repeat (rewrite bind_run; simpl). pass_ticks C. rewrite Hfailed.
  unfold Update.cleanup. run_prims. unfold Fs.write in *.
  repeat (case_decide; simpl); set_solver.
Qed.

(** X5. A run whose transfer fails leaves the filesystem as it found it,
    minus the temporary download file: no destination directory is created
    and nothing is extracted. For Simitone this holds once the release
    lookup has resolved. *)
Theorem failed_transfer_leaves_no_trace (C : Config) (s : state) :
  (∀ i e, MacExtras.hasFailed e = true →
     fs (MacExtras.install C i e s).2 = fs s ∖ {[ MacExtras.tempPath i ]})
  ∧ (∀ i e, TSO.hasFailed e = true →
     fs (TSO.install C i e s).2 = fs s ∖ {[ TSO.tempFilePath i ]})
  ∧ (∀ i e tag, Simitone.releaseInfo e = Resolved tag → Simitone.failed e = true →
     fs (Simitone.install C i e s).2 = fs s ∖ {[ Simitone.tempPath i ]})
  ∧ (∀ i e, Update.failed e = true →
     fs (Update.install C i e s).2 = fs s ∖ {[ Update.tempPath ]}).
Proof.
  split; [|split; [|split]].
  - intros i e Hfailed. unfold MacExtras.install, MacExtras.steps, MacExtras.step1.
    rewrite catch_run, !bind_run.
    destruct (MacExtras_download_run C i e s) as (s1 & -> & Hfs1).
    rewrite Hfailed. rewrite bind_run.
    pose proof (proj1 (error_handlers_fs C (FSO_NETWORK_ERROR (locale C)) s1) i) as Hfs.
    destruct (MacExtras_error_run C i (FSO_NETWORK_ERROR (locale C)) s1)
      as (s' & E & _).
    rewrite E in *. simpl in *. rewrite Hfs, Hfs1. set_solver.
  - intros i e Hfailed. unfold TSO.install, TSO.steps, TSO.step1.
    rewrite catch_run, !bind_run.
    destruct (TSO_download_run C i e s) as (s1 & -> & Hfs1 & _).
    rewrite Hfailed. rewrite bind_run.
    pose proof (proj2 (error_handlers_fs C (FSO_NETWORK_ERROR (locale C)) s1) i) as Hfs.
    destruct (TSO_error_run C i (FSO_NETWORK_ERROR (locale C)) s1) as (s' & E & _).
    rewrite E in *. simpl in *. rewrite Hfs, Hfs1. set_solver.
  - intros i e tag Hinfo Hfailed.
    unfold Simitone.install, Simitone.steps, Simitone.step1, Simitone.step2.
    rewrite Hinfo. rewrite catch_run, bind_run, bind_run.
    set (s1 := ((match tag with Some v => set_version v | None => mret tt end) s).2).
    assert (E1 : (match tag with Some v => set_version v | None => mret tt end) s
                 = (Resolved tt, s1)) by (destruct tag; reflexivity).
    assert (Hfs1 : fs s1 = fs s) by (subst s1; destruct tag; reflexivity).
    rewrite E1. clearbody s1. clear E1. rewrite bind_run.
    pose proof (Simitone_download_failed_fs C i e s1 Hfailed) as Hfs2.
    destruct (Simitone_download_failed C i e s1 Hfailed) as (s2 & E2 & _).
    rewrite E2 in Hfs2. rewrite E2. simpl in Hfs2.
    destruct (Simitone_error_run C i (FSO_NETWORK_ERROR (locale C)) s2)
      as (s' & -> & _ & Hfs & _).
    simpl. rewrite Hfs, Hfs2, Hfs1. reflexivity.
  - intros i e Hfailed. unfold Update.install, Update.steps, Update.step1.
    rewrite catch_run, bind_run.
    pose proof (Update_download_failed_fs C i e s Hfailed) as Hfs1.
    destruct (Update_download_outcome C i e s) as (s1 & E1 & _).
    rewrite E1 in *. rewrite Hfailed. simpl in Hfs1.
    match goal with
    | |- context [Update.error C i ?m s1] =>
        destruct (Update_error_run C i m s1) as (s' & -> & _ & Hfs & _)
    end.
    simpl. rewrite Hfs, Hfs1. reflexivity.
Qed.

(** ** The progress loop *)

Lemma ticks_stay_below_100 (C : Config) (d : snapshot) :
  (∀ i, keeps (λ s, count is_add_from_100 (log s)) (MacExtras.tick C i d))
  ∧ (∀ i, keeps (λ s, count is_add_from_100 (log s)) (Simitone.tick C i d))
  ∧ (∀ i, keeps (λ s, count is_add_from_100 (log s)) (Update.tick C i d)).
Proof.
  split; [|split]; intros i s.
  - unfold MacExtras.tick, MacExtras.createProgressItem,
      MacExtras.updateDownloadProgress. run_prims.
    destruct (Z.ltb_spec (MacExtras.percentage (getProgress d)) 100) as [Hp|Hp];
      [|reflexivity].
    destruct (haltProgress s); simpl; [reflexivity|].
    rewrite !count_app. simpl.
    rewrite (proj2 (Z.leb_gt 100 _) Hp). lia.
  - unfold Simitone.tick, Simitone.createProgressItem,
      Simitone.updateDownloadProgress. run_prims.
    destruct (Z.ltb_spec (Simitone.percentage (getProgress d)) 100) as [Hp|Hp];
      [|reflexivity].
    destruct (haltProgress s); simpl; [reflexivity|].
    rewrite !count_app. simpl.
    rewrite (proj2 (Z.leb_gt 100 _) Hp). lia.
  - unfold Update.tick, Update.createProgressItem,
      Update.updateDownloadProgress. run_prims.
    destruct (getProgress d) as [p|]; [|reflexivity].
    destruct (Z.ltb_spec p 100) as [Hp|Hp]; [|reflexivity].
    simpl. destruct (haltProgress s); simpl; [reflexivity|].
    rewrite !count_app. simpl.
    rewrite (proj2 (Z.leb_gt 100 _) Hp). lia.
Qed.

(** X6. The progress loop of the macOS Extras, Simitone and update
    installers never shows a download sample of 100% or more: over any
    sequence of timer deadlines and readings, the number of progress
    notifications at or above 100% in the log stays what it was. *)
Theorem download_samples_stay_below_100 (C : Config) (ds : list snapshot)
    (s : state) :
  (∀ i, count is_add_from_100 (log (run_ticks (MacExtras.tick C i) ds s).2)
        = count is_add_from_100 (log s))
  ∧ (∀ i, count is_add_from_100 (log (run_ticks (Simitone.tick C i) ds s).2)
        = count is_add_from_100 (log s))
  ∧ (∀ i, count is_add_from_100 (log (run_ticks (Update.tick C i) ds s).2)
        = count is_add_from_100 (log s)).
Proof.
  split; [|split]; intros i;
    apply (keeps_run_ticks (λ s, count is_add_from_100 (log s)));
    intros d; apply (ticks_stay_below_100 C d).
Qed.

(** X7. The progress loop ends for good at the first deadline whose reading
    is not below 100: the callback then neither notifies nor schedules
    itself again, and no later deadline does anything, whatever the later
    readings. For the update installer a reading that is not a number ends
    the loop in the same way. *)
Theorem progress_loop_ends_at_100 (C : Config) (d : snapshot)
    (ds : list snapshot) (s : state) :
  timer s = true →
  (∀ i, (MacExtras.percentage (getProgress d) <? 100) = false →
     run_ticks (MacExtras.tick C i) (d :: ds) s = (Resolved tt, disarmed s))
  ∧ (∀ i, (Simitone.percentage (getProgress d) <? 100) = false →
     run_ticks (Simitone.tick C i) (d :: ds) s = (Resolved tt, disarmed s))
  ∧ (∀ i, match getProgress d with Num p => p <? 100 | NaN => false end = false →
     run_ticks (Update.tick C i) (d :: ds) s = (Resolved tt, disarmed s)).
Proof.
  intros Htimer. split; [|split]; intros i Hdone; unfold run_ticks; simpl;
    rewrite bind_run.
  - assert (Hfire : fire (MacExtras.tick C i) d s = (Resolved tt, disarmed s)).
    { unfold fire, MacExtras.tick. run_prims. rewrite Htimer, Hdone. reflexivity. }
    rewrite Hfire. apply (run_ticks_idle _ ds (disarmed s)). reflexivity.
  - assert (Hfire : fire (Simitone.tick C i) d s = (Resolved tt, disarmed s)).
    { unfold fire, Simitone.tick. run_prims. rewrite Htimer, Hdone. reflexivity. }
    rewrite Hfire. apply (run_ticks_idle _ ds (disarmed s)). reflexivity.
  - assert (Hfire : fire (Update.tick C i) d s = (Resolved tt, disarmed s)).
    { unfold fire, Update.tick. run_prims. rewrite Htimer.
      destruct (getProgress d) as [p|]; [rewrite Hdone|]; reflexivity. }
    rewrite Hfire. apply (run_ticks_idle _ ds (disarmed s)). reflexivity.
Qed.

(** ** After the run *)

Lemma run_keeps_halt (C : Config) :
  (∀ i e, keeps haltProgress (MacExtras.steps C i e;; MacExtras.end_ C i))
  ∧ (∀ i e, keeps haltProgress (Simitone.steps C i e;; Simitone.end_ C i))
  ∧ (∀ i e, keeps haltProgress (Update.steps C i e;; Update.end_ C i)).
Proof.
  split; [|split]; intros i e;
    unfold MacExtras.end_, Simitone.end_, Update.end_, Update.execute;
    unfold_steps; repeat keeps_step; keeps_leaf.
Qed.

Lemma TSO_steps_halt (C : Config) (i : TSO.installer) (e : TSO.env) (s : state) :
  haltProgress (TSO.steps C i e s).2 = true.
Proof.
  unfold TSO.steps, TSO.step1. rewrite bind_run.
  destruct (TSO_download_run C i e s) as (s1 & -> & _ & Hhalt).
  destruct (TSO.hasFailed e); [exact Hhalt|].
  assert (Hk : keeps haltProgress
                 (TSO.step2 C i e;;
                  unzipgc ← TSO.step3 C i e;
                  TSO.step4 C i e unzipgc;; TSO.step5 C i e))
    by (unfold_steps; repeat keeps_step; keeps_leaf).
  rewrite Hk. exact Hhalt.
Qed.

(** The flag [haltProgress] after a run: The Sims Online installer always
    leaves it set; the other installers set it exactly when the run fails. *)
Lemma halt_after_run (C : Config) (s : state) :
  (∀ i e, haltProgress (MacExtras.install C i e s).2
          = haltProgress s || rejected (MacExtras.install C i e s).1)
  ∧ (∀ i e, haltProgress (TSO.install C i e s).2 = true)
  ∧ (∀ i e, haltProgress (Simitone.install C i e s).2
          = haltProgress s || rejected (Simitone.install C i e s).1)
  ∧ (∀ i e, haltProgress (Update.install C i e s).2
          = haltProgress s || rejected (Update.install C i e s).1).
Proof.
  split; [|split; [|split]]; intros i e.
  - unfold MacExtras.install. rewrite catch_run.
    pose proof (proj1 (run_keeps_halt C) i e s) as Hk.
    pose proof (proj1 (handlers_settle C) i) as Hend.
    rewrite bind_run in *.
    destruct (MacExtras.steps C i e s) as [[[]|err] s1]; cbv beta iota in *.
    + destruct (Hend s1) as [[] H1].
      destruct (MacExtras.end_ C i s1) as [o s2]. simpl in *. subst o.
      simpl. rewrite Hk. symmetry. apply orb_false_r.
    + rewrite bind_run.
      destruct (MacExtras_error_run C i err s1) as (s' & -> & _ & _ & Hhalt).
      simpl. rewrite Hhalt. symmetry. apply orb_true_r.
  - unfold TSO.install. rewrite catch_run, bind_run.
    pose proof (TSO_steps_halt C i e s) as Hhalt.
    destruct (TSO.steps C i e s) as [[[]|err] s1]; cbv beta iota in *.
    + assert (Hk : keeps haltProgress (TSO.end_ C i))
        by (unfold TSO.end_; unfold_steps; repeat keeps_step; keeps_leaf).
      destruct (TSO_end_run C i s1) as (s' & E & _).
      specialize (Hk s1). rewrite E in *. simpl in *. congruence.
    + rewrite bind_run.
      destruct (TSO_error_run C i err s1) as (s' & -> & _ & _ & H'). exact H'.
  - unfold Simitone.install. rewrite catch_run.
    pose proof (proj1 (proj2 (run_keeps_halt C)) i e s) as Hk.
    pose proof (proj1 (proj2 (proj2 (handlers_settle C))) i) as Hend.
    rewrite bind_run in *.
    destruct (Simitone.steps C i e s) as [[[]|err] s1]; cbv beta iota in *.
    + destruct (Hend s1) as [[] H1].
      destruct (Simitone.end_ C i s1) as [o s2]. simpl in *. subst o.
      simpl. rewrite Hk. symmetry. apply orb_false_r.
    + destruct (Simitone_error_run C i err s1) as (s' & -> & _ & _ & Hhalt).
      simpl. rewrite Hhalt. symmetry. apply orb_true_r.
  - unfold Update.install. rewrite catch_run.
    pose proof (proj2 (proj2 (run_keeps_halt C)) i e s) as Hk.
    pose proof (proj1 (proj2 (proj2 (proj2 (handlers_settle C)))) i) as Hend.
    rewrite bind_run in *.
    destruct (Update.steps C i e s) as [[[]|err] s1]; cbv beta iota in *.
    + destruct (Hend s1) as [[] H1].
      destruct (Update.end_ C i s1) as [o s2]. simpl in *. subst o.
      simpl. rewrite Hk. symmetry. apply orb_false_r.
    + destruct (Update_error_run C i err s1) as (s' & -> & _ & _ & Hhalt).
      simpl. rewrite Hhalt. symmetry. apply orb_true_r.
Qed.

Lemma halted_run_ticks_silent (C : Config) (ds : list snapshot) (s : state) :
  haltProgress s = true →
  (∀ i, log (run_ticks (MacExtras.tick C i) ds s).2 = log s)
  ∧ (∀ i, log (run_ticks (TSO.tick C i) ds s).2 = log s)
  ∧ (∀ i, log (run_ticks (Simitone.tick C i) ds s).2 = log s)
  ∧ (∀ i, log (run_ticks (Update.tick C i) ds s).2 = log s).
Proof.
  intros Hs.
  split; [|split; [|split]]; intros i;
    (apply run_ticks_silent; [|intros d s0 H0|exact Hs];
     [ intros d; apply (ticks_keep_halt C)
     | apply (halted_ticks_silent C d s0 H0) ]).
Qed.

(** X8. After a failed run nothing more is shown for it: whatever timer
    deadlines elapse once [install] has rejected, and whatever the download
    handle then reports, the log stays as the run left it. For The Sims
    Online installer this holds after a finished run as well. *)
Theorem no_sample_after_failed_run (C : Config) (ds : list snapshot) (s : state) :
  (∀ i e, rejected (MacExtras.install C i e s).1 = true →
     log (run_ticks (MacExtras.tick C i) ds (MacExtras.install C i e s).2).2
     = log (MacExtras.install C i e s).2)
  ∧ (∀ i e,
     log (run_ticks (TSO.tick C i) ds (TSO.install C i e s).2).2
     = log (TSO.install C i e s).2)
  ∧ (∀ i e, rejected (Simitone.install C i e s).1 = true →
     log (run_ticks (Simitone.tick C i) ds (Simitone.install C i e s).2).2
     = log (Simitone.install C i e s).2)
  ∧ (∀ i e, rejected (Update.install C i e s).1 = true →
     log (run_ticks (Update.tick C i) ds (Update.install C i e s).2).2
     = log (Update.install C i e s).2).
Proof.
  pose proof (halt_after_run C s) as (Hmac & Htso & Hsim & Hupd).
  split; [|split; [|split]].
  - intros i e Hrej.
    refine (proj1 (halted_run_ticks_silent C ds _ _) i).
    rewrite Hmac, Hrej. apply orb_true_r.
  - intros i e.
    refine (proj1 (proj2 (halted_run_ticks_silent C ds _ _)) i). apply Htso.
  - intros i e Hrej.
    refine (proj1 (proj2 (proj2 (halted_run_ticks_silent C ds _ _))) i).
    rewrite Hsim, Hrej. apply orb_true_r.
  - intros i e Hrej.
    refine (proj2 (proj2 (proj2 (halted_run_ticks_silent C ds _ _))) i).
    rewrite Hupd, Hrej. apply orb_true_r.
Qed.

(** ** What a run sends, and to which row *)

Ltac unfold_handlers :=
  unfold MacExtras.install, MacExtras.end_, MacExtras.error,
    TSO.install, TSO.end_, TSO.error,
    Simitone.install, Simitone.end_, Simitone.error,
    Update.install, Update.end_, Update.error, Update.execute.

(** X9. A run only ever addresses its own progress row: every
    [addProgressItem] and [stopProgressItem] call a run of any of the four
    installers makes, from its progress loop, its steps or its terminal
    handler, carries the element id built from the run's own id. *)
Theorem run_addresses_only_its_row (C : Config) (s : state) :
  (∀ i e, count (is_foreign (MacExtras.elId i)) (log (MacExtras.install C i e s).2)
          = count (is_foreign (MacExtras.elId i)) (log s))
  ∧ (∀ i e, count (is_foreign (TSO.elId i)) (log (TSO.install C i e s).2)
          = count (is_foreign (TSO.elId i)) (log s))
  ∧ (∀ i e, count (is_foreign (Simitone.elId i)) (log (Simitone.install C i e s).2)
          = count (is_foreign (Simitone.elId i)) (log s))
  ∧ (∀ i e, count (is_foreign (Update.elId i)) (log (Update.install C i e s).2)
          = count (is_foreign (Update.elId i)) (log s)).
Proof.
  split; [|split; [|split]]; intros i e.
  - assert (Hk : keeps (λ s, count (is_foreign (MacExtras.elId i)) (log s))
                   (MacExtras.install C i e)).
    { unfold_handlers; unfold_steps.
      generalize (MacExtras.elId i). intros row.
      repeat keeps_step; keeps_count. }
    apply Hk.
  - assert (Hk : keeps (λ s, count (is_foreign (TSO.elId i)) (log s))
                   (TSO.install C i e)).
    { unfold_handlers; unfold_steps.
      generalize (TSO.elId i). intros row.
      repeat keeps_step; keeps_count. }
    apply Hk.
  - assert (Hk : keeps (λ s, count (is_foreign (Simitone.elId i)) (log s))
                   (Simitone.install C i e)).
    { unfold_handlers; unfold_steps.
      generalize (Simitone.elId i). intros row.
      repeat keeps_step; keeps_count. }
    apply Hk.
  - assert (Hk : keeps (λ s, count (is_foreign (Update.elId i)) (log s))
                   (Update.install C i e)).
    { unfold_handlers; unfold_steps.
      generalize (Update.elId i). intros row.
      repeat keeps_step; keeps_count. }
    apply Hk.
Qed.

(** X10. Only the Simitone installer releases the active-task marker
    itself: every Simitone run, finished or failed, calls
    [removeActiveTask('Simitone')] exactly once and for no other name, while
    a run of the macOS Extras, The Sims Online or update installer never
    calls [removeActiveTask]. *)
Theorem simitone_releases_its_marker (C : Config) (s : state) :
  (∀ i e, count (is_remove_task "Simitone") (log (Simitone.install C i e s).2)
          = S (count (is_remove_task "Simitone") (log s))
          ∧ count is_remove_task_any (log (Simitone.install C i e s).2)
            = S (count is_remove_task_any (log s)))
  ∧ (∀ i e, count is_remove_task_any (log (MacExtras.install C i e s).2)
          = count is_remove_task_any (log s))
  ∧ (∀ i e, count is_remove_task_any (log (TSO.install C i e s).2)
          = count is_remove_task_any (log s))
  ∧ (∀ i e, count is_remove_task_any (log (Update.install C i e s).2)
          = count is_remove_task_any (log s)).
Proof.
  split; [|split; [|split]]; intros i e.
  - split.
    + apply (install_counts_once (λ s, count (is_remove_task "Simitone") (log s))).
      * unfold_steps; repeat keeps_step; keeps_count.
      * intros s0. destruct (Simitone_end_run C i s0) as (s' & -> & Hlog & _).
        exists s'. split; [reflexivity|].
        rewrite (count_after _ _ _ _ Hlog). rewrite !count_app. simpl.
        repeat case_bool_decide; simpl; try lia; congruence.
      * intros err s0.
        destruct (Simitone_error_run C i err s0) as (s' & -> & Hlog & _).
        simpl. rewrite (count_after _ _ _ _ Hlog). simpl.
        repeat case_bool_decide; simpl; try lia; congruence.
    + apply (install_counts_once (λ s, count is_remove_task_any (log s))).
      * unfold_steps; repeat keeps_step; keeps_count.
      * intros s0. destruct (Simitone_end_run C i s0) as (s' & -> & Hlog & _).
        exists s'. split; [reflexivity|].
        rewrite (count_after _ _ _ _ Hlog). rewrite !count_app. simpl.
        repeat case_bool_decide; simpl; lia.
      * intros err s0.
        destruct (Simitone_error_run C i err s0) as (s' & -> & Hlog & _).
        simpl. rewrite (count_after _ _ _ _ Hlog). simpl. lia.
  - assert (Hk : keeps (λ s, count is_remove_task_any (log s))
                   (MacExtras.install C i e))
      by (unfold_handlers; unfold_steps; repeat keeps_step; keeps_count).
    apply Hk.
  - assert (Hk : keeps (λ s, count is_remove_task_any (log s)) (TSO.install C i e))
      by (unfold_handlers; unfold_steps; repeat keeps_step; keeps_count).
    apply Hk.
  - assert (Hk : keeps (λ s, count is_remove_task_any (log s)) (Update.install C i e))
      by (unfold_handlers; unfold_steps; repeat keeps_step; keeps_count).
    apply Hk.
Qed.

(** ** The Simitone version *)

Lemma Simitone_steps_version (C : Config) (i : Simitone.installer)
    (e : Simitone.env) (tag : option string) (s : state) :
  Simitone.releaseInfo e = Resolved tag →
  simitoneVersion (Simitone.steps C i e s).2
  = match tag with Some v => v | None => simitoneVersion s end.
Proof.
  intros Hinfo. unfold Simitone.steps, Simitone.step1. rewrite Hinfo, bind_run.
  assert (Hk : keeps simitoneVersion
                 (Simitone.step2 C i e;; Simitone.step3 C i e;;
                  Simitone.step4 C i e;; Simitone.step5 C i e))
    by (unfold_steps; repeat keeps_step; keeps_leaf).
  destruct tag as [v|]; simpl; rewrite Hk; reflexivity.
Qed.

(** X11. The version a Simitone run records. When the release lookup
    resolves, a run that finishes writes the configuration entry
    [Game / SimitoneVersion] exactly once with the release's tag name, and
    writes nothing when the version is empty (no tag name and none known
    before); a run that fails never writes it. *)
Theorem simitone_records_release_tag (C : Config) (i : Simitone.installer)
    (e : Simitone.env) (tag : option string) (s : state) :
  Simitone.releaseInfo e = Resolved tag →
  count is_set_configuration (log (Simitone.install C i e s).2)
  = (count is_set_configuration (log s)
     + if rejected (Simitone.install C i e s).1 then 0
       else if bool_decide (match tag with Some v => v | None => simitoneVersion s end = "")
            then 0 else 1)%nat
  ∧ (rejected (Simitone.install C i e s).1 = false →
     match tag with Some v => v | None => simitoneVersion s end ≠ "" →
     SetConfiguration ["Game"; "SimitoneVersion";
                       match tag with Some v => v | None => simitoneVersion s end]
       ∈ log (Simitone.install C i e s).2).
Proof.
  intros Hinfo.
  pose proof (Simitone_steps_version C i e tag s Hinfo) as Hversion.
  assert (Hk : keeps (λ s, count is_set_configuration (log s)) (Simitone.steps C i e))
    by (unfold_steps; repeat keeps_step; keeps_count).
  specialize (Hk s).
  unfold Simitone.install. rewrite catch_run, bind_run.
  destruct (Simitone.steps C i e s) as [[[]|err] s1]; cbv beta iota;
    simpl in Hversion, Hk.
  - destruct (Simitone_end_run C i s1) as (s' & -> & Hlog & _).
    rewrite Hversion in Hlog. simpl. split.
    + rewrite (count_after _ _ _ _ Hlog), Hk, !count_app.
      case_bool_decide; simpl; lia.
    + intros _ Hne. rewrite Hlog.
      rewrite bool_decide_eq_false_2 by exact Hne.
      rewrite !elem_of_app. right. right. left. constructor.
  - destruct (Simitone_error_run C i err s1) as (s' & -> & Hlog & _).
    simpl. split; [|discriminate].
    rewrite (count_after _ _ _ _ Hlog), Hk. simpl. lia.
Qed.

(** ** The path shown in a progress row *)

Lemma prefix_app (p r : string) : String.prefix p (p +:+ r) = true.
Proof.
  induction p as [|c p IH]; simpl.
  - destruct r; reflexivity.
  - destruct (Ascii.ascii_dec c c) as [_|Hne]; [exact IH | contradiction].
Qed.

Lemma string_drop_app (p r : string) : string_drop (String.length p) (p +:+ r) = r.
Proof. induction p as [|c p IH]; simpl; [destruct r; reflexivity | exact IH]. Qed.

Lemma replace_unfold (pat rep s : string) :
  replace pat rep s
  = if String.prefix pat s then rep +:+ string_drop (String.length pat) s
    else match s with
         | EmptyString => EmptyString
         | String c s' => String c (replace pat rep s')
         end.
Proof. destruct s; reflexivity. Qed.

Lemma replace_prefix (p rep r : string) : replace p rep (p +:+ r) = rep +:+ r.
Proof. rewrite replace_unfold, prefix_app, string_drop_app. reflexivity. Qed.

Lemma includes_unfold (needle hay : string) :
  includes needle hay
  = String.prefix needle hay
    || match hay with
       | EmptyString => false
       | String _ hay' => includes needle hay'
       end.
Proof. destruct hay; reflexivity. Qed.

Lemma replace_absent (pat rep s : string) :
  includes pat s = false → replace pat rep s = s.
Proof.
  induction s as [|c s IH]; intros H; rewrite replace_unfold;
    rewrite includes_unfold in H; apply orb_false_iff in H as [Hprefix Hrest];
    rewrite Hprefix; [reflexivity|].
  rewrite (IH Hrest). reflexivity.
Qed.

Lemma append_assoc (a b c : string) : a +:+ b +:+ c = (a +:+ b) +:+ c.
Proof.
  induction a as [|x a IH]; [reflexivity|].
  change (String x (a +:+ b +:+ c) = String x ((a +:+ b) +:+ c)).
  f_equal. exact IH.
Qed.

Lemma prefix_split (p s : string) :
  String.prefix p s = true → s = p +:+ string_drop (String.length p) s.
Proof.
  revert s. induction p as [|c p IH]; intros s H.
  - destruct s; reflexivity.
  - destruct s as [|d s]; [discriminate H|].
    simpl in H. destruct (Ascii.ascii_dec c d) as [->|]; [|discriminate H].
    change (String d s = String d (p +:+ string_drop (String.length p) s)).
    f_equal. apply IH. exact H.
Qed.

Lemma replace_first (pat rep pre rest : string) :
  (∀ k, (k < String.length pre)%nat →
        String.prefix pat (string_drop k (pre +:+ pat +:+ rest)) = false) →
  replace pat rep (pre +:+ pat +:+ rest) = pre +:+ rep +:+ rest.
Proof.
  induction pre as [|c pre IH]; intros Hfirst.
  - change (replace pat rep (pat +:+ rest) = rep +:+ rest). apply replace_prefix.
  - change (replace pat rep (String c (pre +:+ pat +:+ rest))
            = String c (pre +:+ rep +:+ rest)).
    rewrite replace_unfold.
    rewrite (Hfirst 0%nat ltac:(simpl; lia) : String.prefix pat (String c (pre +:+ pat +:+ rest)) = false).
    f_equal. apply IH. intros k Hk.
    apply (Hfirst (S k)). simpl. lia.
Qed.

Lemma includes_first (pat s : string) :
  includes pat s = true →
  ∃ pre rest, s = pre +:+ pat +:+ rest
    ∧ ∀ k, (k < String.length pre)%nat →
           String.prefix pat (string_drop k s) = false.
Proof.
  induction s as [|c s IH]; intros H; rewrite includes_unfold in H.
  - rewrite orb_false_r in H. exists "", (string_drop (String.length pat) "").
    split; [exact (prefix_split _ _ H)|]. intros k Hk. simpl in Hk. lia.
  - destruct (String.prefix pat (String c s)) eqn:Hprefix.
    + exists "", (string_drop (String.length pat) (String c s)).
      split; [exact (prefix_split _ _ Hprefix)|]. intros k Hk. simpl in Hk. lia.
    + simpl in H. destruct (IH H) as (pre & rest & -> & Hfirst).
      exists (String c pre), rest. split; [reflexivity|].
      intros [|k] Hk; [exact Hprefix|]. apply Hfirst. simpl in Hk. lia.
Qed.

(** X12. The path a progress row shows. On Windows the macOS Extras and The
    Sims Online installers show the installation path as it is. Elsewhere
    they cut the first occurrence of [appData + '/'] out of it, and only
    that one:
    - a path below the application data directory is shown relative to it;
    - a path that does not contain that directory is shown unchanged;
    - a path [pre + appData + '/' + rest], where no occurrence starts within
      [pre], is shown as [pre + rest], whatever [rest] holds;
    - every path that contains the directory is of that form. *)
Theorem text_path_is_relative_to_app_data (C : Config) :
  (platform C = "win32" →
     (∀ i, MacExtras.textPath C i = MacExtras.path i)
     ∧ (∀ i, TSO.textPath C i = TSO.path i))
  ∧ (platform C ≠ "win32" →
     (∀ i rest, MacExtras.path i = appData C +:+ "/" +:+ rest →
        MacExtras.textPath C i = rest)
     ∧ (∀ i rest, TSO.path i = appData C +:+ "/" +:+ rest →
        TSO.textPath C i = rest)
     ∧ (∀ i, includes (appData C +:+ "/") (MacExtras.path i) = false →
        MacExtras.textPath C i = MacExtras.path i)
     ∧ (∀ i, includes (appData C +:+ "/") (TSO.path i) = false →
        TSO.textPath C i = TSO.path i)
     ∧ (∀ i pre rest,
        MacExtras.path i = pre +:+ (appData C +:+ "/") +:+ rest →
        (∀ k, (k < String.length pre)%nat →
           String.prefix (appData C +:+ "/") (string_drop k (MacExtras.path i))
           = false) →
        MacExtras.textPath C i = pre +:+ rest)
     ∧ (∀ i pre rest,
        TSO.path i = pre +:+ (appData C +:+ "/") +:+ rest →
        (∀ k, (k < String.length pre)%nat →
           String.prefix (appData C +:+ "/") (string_drop k (TSO.path i))
           = false) →
        TSO.textPath C i = pre +:+ rest)
     ∧ (∀ i, includes (appData C +:+ "/") (MacExtras.path i) = true →
        ∃ pre rest,
          MacExtras.path i = pre +:+ (appData C +:+ "/") +:+ rest
          ∧ (∀ k, (k < String.length pre)%nat →
               String.prefix (appData C +:+ "/")
                 (string_drop k (MacExtras.path i)) = false)
          ∧ MacExtras.textPath C i = pre +:+ rest)
     ∧ (∀ i, includes (appData C +:+ "/") (TSO.path i) = true →
        ∃ pre rest,
          TSO.path i = pre +:+ (appData C +:+ "/") +:+ rest
          ∧ (∀ k, (k < String.length pre)%nat →
               String.prefix (appData C +:+ "/")
                 (string_drop k (TSO.path i)) = false)
          ∧ TSO.textPath C i = pre +:+ rest)).
Proof.
  assert (Happ : ∀ a b c : string, a +:+ b +:+ c = (a +:+ b) +:+ c)
    by exact append_assoc.
  assert (Hcut : ∀ pat p pre rest,
            p = pre +:+ pat +:+ rest →
            (∀ k, (k < String.length pre)%nat →
               String.prefix pat (string_drop k p) = false) →
            replace pat "" p = pre +:+ rest).
  { intros pat p pre rest -> Hfirst. exact (replace_first pat "" pre rest Hfirst). }
  assert (Hfound : ∀ pat p, includes pat p = true →
            ∃ pre rest, p = pre +:+ pat +:+ rest
              ∧ (∀ k, (k < String.length pre)%nat →
                   String.prefix pat (string_drop k p) = false)
              ∧ replace pat "" p = pre +:+ rest).
  { intros pat p Hin. destruct (includes_first pat p Hin) as (pre & rest & Hp & Hfirst).
    exists pre, rest. split; [exact Hp|]. split; [exact Hfirst|].
    exact (Hcut pat p pre rest Hp Hfirst). }
  unfold MacExtras.textPath, TSO.textPath. split.
  - intros Hwin. rewrite (bool_decide_eq_true_2 _ Hwin). split; reflexivity.
  - intros Hother. rewrite (bool_decide_eq_false_2 _ Hother).
    split; [|split; [|split; [|split; [|split; [|split; [|split]]]]]].
    + intros i rest ->. rewrite Happ. apply replace_prefix.
    + intros i rest ->. rewrite Happ. apply replace_prefix.
    + intros i. apply replace_absent.
    + intros i. apply replace_absent.
    + intros i pre rest. apply Hcut.
    + intros i pre rest. apply Hcut.
    + intros i. apply Hfound.
    + intros i. apply Hfound.
Qed.

(** ** After the transfer has ended *)

Section KeepsHalted.
Context {X : Type} (f : state → X).

Lemma kh_of_keeps {A} (m : M A) :
  keeps f m → keeps haltProgress m → keeps_halted f m.
Proof. intros Hf Hh s Hs. split; [apply Hf | rewrite Hh; exact Hs]. Qed.

Lemma kh_bind {A B} (m : M A) (k : A → M B) :
  keeps_halted f m → (∀ a, keeps_halted f (k a)) → keeps_halted f (m ≫= k).
Proof.
  intros Hm Hk s Hs. rewrite bind_run.
  destruct (Hm s Hs) as [Hf Hh]. destruct (m s) as [[a|e] s1]; simpl in *.
  - destruct (Hk a s1 Hh) as [Hf' Hh']. split; [congruence | exact Hh'].
  - split; assumption.
Qed.

Lemma kh_for_each {A} (g : A → M unit) (l : list A) :
  (∀ a, keeps_halted f (g a)) → keeps_halted f (for_each g l).
Proof.
  intros Hg. induction l as [|a l IH]; simpl.
  - intros s Hs. split; [reflexivity | exact Hs].
  - apply kh_bind; [apply Hg | intros _; exact IH].
Qed.

Lemma kh_run_ticks (callback : snapshot → M unit) (ds : list snapshot) :
  (∀ d, keeps_halted f (callback d)) → keeps_halted f (run_ticks callback ds).
Proof.
  intros H. apply kh_for_each. intros d s Hs.
  unfold fire. rewrite bind_run. simpl.
  destruct (timer s); [apply H, Hs | split; [reflexivity | exact Hs]].
Qed.

End KeepsHalted.

Lemma TSO_tick_halted {X} (f : state → X) (C : Config) (i : TSO.installer)
    (d : snapshot) :
  (∀ s, f (disarmed s) = f s) → keeps_halted f (TSO.tick C i d).
Proof.
  intros Hf s Hs. pose proof (Hf s) as Hd. unfold disarmed in Hd.
  unfold TSO.tick. run_prims. rewrite Hs in Hd |- *. simpl.
  split; [exact Hd | reflexivity].
Qed.

Ltac kh_step C :=
  first
    [ apply kh_run_ticks; intros ?; apply TSO_tick_halted; intros ?; reflexivity
    | apply kh_bind; [|intros ?]
    | apply kh_for_each; intros ?
    | match goal with
      | |- keeps_halted _ (if ?b then _ else _) => destruct b
      | |- keeps_halted _ (match ?x with _ => _ end) => destruct x
      end
    | apply kh_of_keeps;
      [ first [apply keeps_ret | apply keeps_reject | apply keeps_get | keeps_count]
      | first [apply keeps_ret | apply keeps_reject | apply keeps_get | keeps_leaf] ] ].

Lemma TSO_later_steps_show_100 (C : Config) (i : TSO.installer) (e : TSO.env) :
  keeps_halted (λ s, count is_add_off_100 (log s))
    (TSO.step2 C i e;;
     unzipgc ← TSO.step3 C i e;
     TSO.step4 C i e unzipgc;; TSO.step5 C i e).
Proof.
  unfold TSO.step2, TSO.step3, TSO.step4, TSO.step5, TSO.setupDir,
    TSO.extractZip, TSO.extractCabs, TSO.locateFirstCab,
    TSO.updateExtractionProgress, TSO.createProgressItem,
    Unzip.unzip, Unzip.call, Cabinet.extract, Download.cleanup.
  repeat kh_step C.
Qed.

(** X13. Once the transfer has ended, a run of The Sims Online installer
    shows nothing but 100%: every progress notification sent after the
    download step has settled, by the later steps, by the progress timer or
    by the terminal handler, is at 100%, whatever the download handle reports
    by then. *)
Theorem tso_shows_100_after_transfer (C : Config) (i : TSO.installer)
    (e : TSO.env) (s : state) :
  count is_add_off_100 (log (TSO.install C i e s).2)
  = count is_add_off_100 (log (TSO.download C i e s).2).
Proof.
  unfold TSO.install, TSO.steps, TSO.step1.
  rewrite catch_run, bind_run, bind_run.
  destruct (TSO_download_run C i e s) as (s1 & -> & _ & Hhalt). simpl snd.
  destruct (TSO.hasFailed e); cbv beta iota.
  - rewrite bind_run.
    destruct (TSO_error_run C i (FSO_NETWORK_ERROR (locale C)) s1)
      as (s' & -> & Hlog & _).
    simpl. rewrite (count_after _ _ _ _ Hlog). simpl. lia.
  - destruct (TSO_later_steps_show_100 C i e s1 Hhalt) as [Hcount _].
    destruct ((TSO.step2 C i e;;
               unzipgc ← TSO.step3 C i e;
               TSO.step4 C i e unzipgc;; TSO.step5 C i e) s1)
      as [[[]|err] s2]; simpl in Hcount; cbv beta iota.
    + destruct (TSO_end_run C i s2) as (s' & -> & Hlog & _).
      simpl. rewrite (count_after _ _ _ _ Hlog), Hcount. simpl. lia.
    + rewrite bind_run.
      destruct (TSO_error_run C i err s2) as (s' & -> & Hlog & _).
      simpl. rewrite (count_after _ _ _ _ Hlog), Hcount. simpl. lia.
Qed.

(** ** A finished run *)

Lemma install_resolved (steps end_ : M unit) (handler : string → M unit)
    (s s1 : state) :
  steps s = (Resolved tt, s1) →
  (∃ s', end_ s1 = (Resolved tt, s')) →
  catch (steps;; end_) handler s = end_ s1.
Proof.
  intros H (s' & Hend). rewrite catch_run, bind_run, H, Hend. reflexivity.
Qed.

(** X14. When every step of a run has resolved, [install] resolves and the
    last thing the run shows is the finished notification at 100% followed
    by the stop notification; the macOS Extras and The Sims Online installers
    send nothing after it, the Simitone installer goes on to refresh the
    installed programs, release its marker, record the version and show the
    installed dialog, the update installer to schedule the quit and start the
    setup program. *)
Theorem finished_run_is_reported (C : Config) :
  (∀ i e s s1,
     MacExtras.steps C i e s = (Resolved tt, s1) →
     ∃ s', MacExtras.install C i e s = (Resolved tt, s')
           ∧ log s' = log s1 ++
               [ AddProgressItem (MacExtras.elId i)
                   (MacExtras.parentComponent i +:+ " MacExtras")
                   (INS_IN (locale C) +:+ " " +:+ MacExtras.textPath C i)
                   (INSTALLATION_FINISHED (locale C)) 100;
                 SetProgressBar 2;
                 StopProgressItem (MacExtras.elId i) ])
  ∧ (∀ i e s s1,
     TSO.steps C i e s = (Resolved tt, s1) →
     ∃ s', TSO.install C i e s = (Resolved tt, s')
           ∧ log s' = log s1 ++
               [ AddProgressItem (TSO.elId i) "The Sims Online (FilePlanet)"
                   (INS_IN (locale C) +:+ " " +:+ TSO.textPath C i)
                   (INSTALLATION_FINISHED (locale C)) 100;
                 SetProgressBar 2;
                 StopProgressItem (TSO.elId i) ])
  ∧ (∀ i e s s1,
     Simitone.steps C i e s = (Resolved tt, s1) →
     ∃ s', Simitone.install C i e s = (Resolved tt, s')
           ∧ log s' = log s1 ++
               [ AddProgressItem (Simitone.elId i)
                   ("Simitone Client " +:+ simitoneVersion s1)
                   ("Installing in " +:+ Simitone.path i)
                   (INSTALLATION_FINISHED (locale C)) 100;
                 StopProgressItem (Simitone.elId i);
                 UpdateInstalledPrograms;
                 RemoveActiveTask "Simitone" ]
               ++ (if bool_decide (simitoneVersion s1 = "") then []
                   else [SetConfiguration
                           ["Game"; "SimitoneVersion"; simitoneVersion s1]])
               ++ [ ShowInstalled "Simitone" ])
  ∧ (∀ i e s s1,
     Update.steps C i e s = (Resolved tt, s1) →
     ∃ s', Update.install C i e s = (Resolved tt, s')
           ∧ log s' = log s1 ++
               [ AddProgressItem (Update.elId i) "FreeSO Launcher"
                   ("Downloading from " +:+ updateLocation C)
                   "Download finished. Setup will start..." 100;
                 StopProgressItem (Update.elId i);
                 ScheduleQuit;
                 Exec "installer.exe" "temp" ]).
Proof.
  split; [|split; [|split]]; intros i e s s1 Hsteps.
  - destruct (MacExtras_end_run C i s1) as (s' & Hend & Hlog & _).
    exists s'. split; [|exact Hlog]. unfold MacExtras.install.
    rewrite (install_resolved _ _ _ _ _ Hsteps); [exact Hend | eauto].
  - destruct (TSO_end_run C i s1) as (s' & Hend & Hlog & _).
    exists s'. split; [|exact Hlog]. unfold TSO.install.
    rewrite (install_resolved _ _ _ _ _ Hsteps); [exact Hend | eauto].
  - destruct (Simitone_end_run C i s1) as (s' & Hend & Hlog & _).
    exists s'. split; [|exact Hlog]. unfold Simitone.install.
    rewrite (install_resolved _ _ _ _ _ Hsteps); [exact Hend | eauto].
  - destruct (Update_end_run C i s1) as (s' & Hend & Hlog & _).
    exists s'. split; [|exact Hlog]. unfold Update.install.
    rewrite (install_resolved _ _ _ _ _ Hsteps); [exact Hend | eauto].
Qed.

(** ** Dialogs *)

(** X15. Which installer shows a dialog. A Simitone run shows exactly one
    dialog, the installed dialog when it finishes and the failed-install
    dialog when it fails; the update installer shows one, the failed-update
    dialog, exactly when its run fails; the macOS Extras and The Sims Online
    installers never show a dialog and leave that to their caller. *)
Theorem dialogs_per_run (C : Config) (s : state) :
  (∀ i e, count is_dialog (log (Simitone.install C i e s).2)
          = S (count is_dialog (log s)))
  ∧ (∀ i e, count is_dialog (log (Update.install C i e s).2)
          = (count is_dialog (log s)
             + if rejected (Update.install C i e s).1 then 1 else 0)%nat)
  ∧ (∀ i e, count is_dialog (log (MacExtras.install C i e s).2)
          = count is_dialog (log s))
  ∧ (∀ i e, count is_dialog (log (TSO.install C i e s).2)
          = count is_dialog (log s)).
Proof.
  split; [|split; [|split]]; intros i e.
  - apply (install_counts_once (λ s, count is_dialog (log s))).
    + unfold_steps; repeat keeps_step; keeps_count.
    + intros s0. destruct (Simitone_end_run C i s0) as (s' & -> & Hlog & _).
      exists s'. split; [reflexivity|].
      rewrite (count_after _ _ _ _ Hlog). rewrite !count_app. simpl.
      case_bool_decide; simpl; lia.
    + intros err s0.
      destruct (Simitone_error_run C i err s0) as (s' & -> & Hlog & _).
      simpl. rewrite (count_after _ _ _ _ Hlog). simpl. lia.
  - assert (Hk : keeps (λ s, count is_dialog (log s)) (Update.steps C i e))
      by (unfold_steps; repeat keeps_step; keeps_count).
    specialize (Hk s). unfold Update.install. rewrite catch_run, bind_run.
    destruct (Update.steps C i e s) as [[[]|err] s1]; cbv beta iota;
      simpl in Hk.
    + destruct (Update_end_run C i s1) as (s' & -> & Hlog & _).
      simpl. rewrite (count_after _ _ _ _ Hlog), Hk. simpl. lia.
    + destruct (Update_error_run C i err s1) as (s' & -> & Hlog & _).
      simpl. rewrite (count_after _ _ _ _ Hlog), Hk. simpl. lia.
  - assert (Hk : keeps (λ s, count is_dialog (log s)) (MacExtras.install C i e))
      by (unfold_handlers; unfold_steps; repeat keeps_step; keeps_count).
    apply Hk.
  - assert (Hk : keeps (λ s, count is_dialog (log s)) (TSO.install C i e))
      by (unfold_handlers; unfold_steps; repeat keeps_step; keeps_count).
    apply Hk.
Qed.

(** ** The percentage over a transfer *)

(** X16. The percentage The Sims Online installer computes never goes down
    as the transfer advances: for readings [0 <= a <= b] of the megabytes
    received, the percentage for [a] is at most the percentage for [b]. *)
Theorem tso_percentage_is_monotone (a b : Z) :
  0 ≤ a → a ≤ b → TSO.percentage (Num a) ≤ TSO.percentage (Num b).
Proof.
  intros Ha Hab.
  assert (Hround : ∀ mb, 0 ≤ mb → TSO.percentage (Num mb) = spec_round mb 1268).
  { intros mb Hmb. unfold TSO.percentage. apply (toFixed0_ratio mb 1268); lia. }
  rewrite (Hround a), (Hround b) by lia.
  unfold spec_round. apply Z.div_le_mono; lia.
Qed.

(** * The further properties on concrete runs *)

Lemma tso_first_failure_decides_witness :
  TSO.pathExists_err Sample.tso_root = None
  ∧ tso_rootCab (temp_TSO Sample.config) ∈ TSO.unzip_entries Sample.tso_root
  ∧ (TSO.install Sample.config Sample.tso Sample.tso_root (initial ∅)).1
    = Resolved tt.
Proof.
  assert (Hroot : tso_rootCab (temp_TSO Sample.config)
                    ∈ TSO.unzip_entries Sample.tso_root) by evaluate.
  split; [reflexivity|]. split; [exact Hroot|].
  rewrite (tso_first_failure_decides Sample.config Sample.tso Sample.tso_root
             (initial ∅) eq_refl (or_intror Hroot)).
  reflexivity.
Defined.

Lemma failed_transfer_leaves_no_trace_witness :
  MacExtras.hasFailed Sample.mac_net_fail = true
  ∧ fs (MacExtras.install Sample.config Sample.mac Sample.mac_net_fail
          (initial {[ "/data/notes.txt" ]})).2
    = fs (initial {[ "/data/notes.txt" ]}) ∖ {[ MacExtras.tempPath Sample.mac ]}.
Proof.
  split; [reflexivity|].
  apply (proj1 (failed_transfer_leaves_no_trace Sample.config
                  (initial {[ "/data/notes.txt" ]}))).
  reflexivity.
Defined.

Lemma progress_loop_ends_at_100_witness :
  timer armed = true
  ∧ (MacExtras.percentage (getProgress at100) <? 100) = false
  ∧ run_ticks (MacExtras.tick Sample.config Sample.mac)
      [at100; Sample.at40; Sample.at40] armed
    = (Resolved tt, disarmed armed).
Proof.
  split; [reflexivity|]. split; [reflexivity|].
  apply (proj1 (progress_loop_ends_at_100 Sample.config at100
                  [Sample.at40; Sample.at40] armed eq_refl)).
  reflexivity.
Defined.

Lemma no_sample_after_failed_run_witness :
  rejected (MacExtras.install Sample.config Sample.mac Sample.mac_net_fail
              (initial ∅)).1 = true
  ∧ log (run_ticks (MacExtras.tick Sample.config Sample.mac)
           [Sample.at40; Sample.at40]
           (MacExtras.install Sample.config Sample.mac Sample.mac_net_fail
              (initial ∅)).2).2
    = log (MacExtras.install Sample.config Sample.mac Sample.mac_net_fail
             (initial ∅)).2.
Proof.
  assert (Hrej : rejected (MacExtras.install Sample.config Sample.mac
                             Sample.mac_net_fail (initial ∅)).1 = true)
    by (vm_compute; reflexivity).
  split; [exact Hrej|].
  apply (proj1 (no_sample_after_failed_run Sample.config
                  [Sample.at40; Sample.at40] (initial ∅))).
  exact Hrej.
Defined.

Lemma simitone_records_release_tag_witness :
  Simitone.releaseInfo Sample.simitone_ok = Resolved (Some "v1.2.3")
  ∧ SetConfiguration ["Game"; "SimitoneVersion"; "v1.2.3"]
      ∈ log (Simitone.install Sample.config Sample.simitone Sample.simitone_ok
               (initial ∅)).2.
Proof.
  split; [reflexivity|].
  apply (proj2 (simitone_records_release_tag Sample.config Sample.simitone
                  Sample.simitone_ok (Some "v1.2.3") (initial ∅) eq_refl)).
  - vm_compute. reflexivity.
  - discriminate.
Defined.

Lemma text_path_is_relative_to_app_data_witness :
  platform Sample.config ≠ "win32"
  ∧ MacExtras.path Sample.mac
    = appData Sample.config +:+ "/" +:+ "GameComponents/FreeSO"
  ∧ MacExtras.textPath Sample.config Sample.mac = "GameComponents/FreeSO"
  ∧ MacExtras.path Sample.mac_mounted
    = "/mnt" +:+ (appData Sample.config +:+ "/") +:+ "old/data/FreeSO"
  ∧ (∀ k, (k < String.length "/mnt")%nat →
       String.prefix (appData Sample.config +:+ "/")
         (string_drop k (MacExtras.path Sample.mac_mounted)) = false)
  ∧ MacExtras.textPath Sample.config Sample.mac_mounted = "/mnt" +:+ "old/data/FreeSO".
Proof.
  assert (Hplatform : platform Sample.config ≠ "win32") by discriminate.
  assert (Hfirst : ∀ k, (k < String.length "/mnt")%nat →
            String.prefix (appData Sample.config +:+ "/")
              (string_drop k (MacExtras.path Sample.mac_mounted)) = false).
  { intros k Hk. change (String.length "/mnt") with 4%nat in Hk.
    destruct k as [|[|[|[|k]]]]; [reflexivity .. | lia]. }
  pose proof (proj2 (text_path_is_relative_to_app_data Sample.config) Hplatform)
    as (Hbelow & _ & _ & _ & Hinside & _).
  split; [exact Hplatform|]. split; [reflexivity|].
  split; [apply Hbelow; reflexivity|].
  split; [reflexivity|].
  split; [exact Hfirst|].
  apply Hinside; [reflexivity | exact Hfirst].
Defined.

Lemma finished_run_is_reported_witness :
  ∃ s1 s',
    MacExtras.steps Sample.config Sample.mac Sample.mac_ok (initial ∅)
      = (Resolved tt, s1)
    ∧ MacExtras.install Sample.config Sample.mac Sample.mac_ok (initial ∅)
      = (Resolved tt, s')
    ∧ log s' = log s1 ++
        [ AddProgressItem "FSOProgressItem1" "FreeSO MacExtras"
            "Installing in GameComponents/FreeSO" "Installation finished" 100;
          SetProgressBar 2;
          StopProgressItem "FSOProgressItem1" ].
Proof.
  set (r := MacExtras.steps Sample.config Sample.mac Sample.mac_ok (initial ∅)).
  assert (Hsteps : r = (Resolved tt, r.2)) by (vm_compute; reflexivity).
  destruct (proj1 (finished_run_is_reported Sample.config) _ _ _ _ Hsteps)
    as (s' & Hinstall & Hlog).
  exists r.2, s'. split; [exact Hsteps|]. split; [exact Hinstall | exact Hlog].
Defined.

Lemma tso_percentage_is_monotone_witness :
  0 ≤ 400 ∧ 400 ≤ 900 ∧ TSO.percentage (Num 400) ≤ TSO.percentage (Num 900).
Proof.
  split; [lia|]. split; [lia|].
  apply (tso_percentage_is_monotone 400 900); lia.
Defined.
